(** * adguardhome-sync: the AdGuardHome API client

    A shallow embedding of [pkg/client/client.go] (package [client]) and of
    the pointer helpers (package [pointer]), with the properties the
    specification states about them.

    Go values are rendered as follows.
    - A pointer that is only tested against [nil] and read is an [option].
    - An [error] result is an [option error]; [None] is Go's [nil].
    - A pair [(T, error)] returned by a function is a Rocq pair.
    - [interface{}] arguments (the key/value pairs handed to the logger) are
      dependent pairs of a type and a value.
    - A method that talks to the appliance is a computation in the monad
      [M]: it threads the state of the outside world, appends the HTTP
      calls it issues and the log lines it writes, and may panic. *)

From Stdlib Require Import String Ascii List ZArith Bool Lia.
From Stdlib Require Import Floats.PrimFloat.
Import ListNotations.
Open Scope string_scope.
Open Scope Z_scope.

(** ** Package [pointer] *)

Module pointer.

Section Helpers.

(** [model.QueryLogConfigInterval] is a numeric type declared in package
    [model], which is not part of the sources at hand; the helpers only
    need the type and the value the literal [0] denotes in it. *)
Variable QueryLogConfigInterval : Type.
Variable zero : QueryLogConfigInterval.

(** [func ToB(b bool) *bool { return &b }] *)
Definition ToB (b : bool) : option bool := Some b.

(** [func FromB(b *bool) bool] *)
Definition FromB (b : option bool) : bool :=
  match b with
  | None => false
  | Some v => v
  end.

(** [func FromQueryLogConfigInterval(i *model.QueryLogConfigInterval)] *)
Definition FromQueryLogConfigInterval (i : option QueryLogConfigInterval)
  : QueryLogConfigInterval :=
  match i with
  | None => zero
  | Some v => v
  end.

End Helpers.

End pointer.

(** ** Package [client] *)

Module client.

(** *** Values of other packages *)

(** Go's [interface{}]: a value together with its dynamic type. *)
Inductive any : Type :=
| Any (T : Type) (x : T).

Definition float64 := PrimFloat.float.

(** Errors.  [ErrSetupNeeded] is the package-level sentinel; Go compares
    errors by identity, so it differs from every error built elsewhere.
    [errors_New] and [fmt_Errorf] are the errors this package builds, and
    [Foreign] is an error value handed back by a library ([net/url],
    resty): a library cannot produce this package's sentinel. *)
Inductive error : Type :=
| ErrSetupNeeded
| errors_New (text : string)
| fmt_Errorf (text : string)
| Foreign (text : string).

Definition error_Error (e : error) : string :=
  match e with
  | ErrSetupNeeded => "setup needed"
  | errors_New s | fmt_Errorf s | Foreign s => s
  end.

(** [types.AdGuardInstance], with the fields [New] reads. *)
Record AdGuardInstance : Type := {
  URL : string;
  APIPath : string;
  Username : string;
  Password : string;
  InsecureSkipVerify : bool
}.

(** Package [types]: the fields [client.go] reads or sets; a field left
    out of a composite literal has Go's zero value. *)
Record RewriteEntry : Type := { Domain : string; Answer : string }.

Record Filter : Type := {
  Filter_ID : Z;
  Filter_Name : string;
  Filter_URL : string;
  Filter_Whitelist : bool;
  Filter_Enabled : bool
}.

Record FilterUpdate : Type := {
  FilterUpdate_Whitelist : bool;
  FilterUpdate_URL : string;
  FilterUpdate_Data : Filter
}.

Record RefreshFilter : Type := { RefreshFilter_Whitelist : bool }.
Record Protection : Type := { ProtectionEnabled : bool }.
Record EnableConfig : Type := { Enabled : bool }.
Record IntervalConfig : Type := { Interval : float64 }.
Record FilteringConfig : Type := {
  FilteringConfig_EnableConfig : EnableConfig;
  FilteringConfig_IntervalConfig : IntervalConfig
}.

Definition UserRules := list string.
Definition BlockedServicesArray := list string.

(** Package [model]: the provisioning payload. *)
Record AddressInfo : Type := { Ip : string; Port : Z }.

Record InitialConfiguration : Type := {
  Web : AddressInfo;
  Dns : AddressInfo;
  cfg_Username : string;
  cfg_Password : string
}.

(** The declarations of packages [model] and [types] that [client.go]
    passes around without looking inside (or only reads for a log line)
    are not part of the sources at hand; they are parameters. *)
Class Model : Type := {
  model_Client : Type;
  model_ClientName : Type;
  Client_Name : model_Client -> model_ClientName;
  model_DhcpStaticLease : Type;
  DhcpStaticLease_Mac : model_DhcpStaticLease -> any;
  DhcpStaticLease_Ip : model_DhcpStaticLease -> any;
  DhcpStaticLease_Hostname : model_DhcpStaticLease -> any;
  model_AccessList : Type;
  model_DNSConfig : Type;
  model_DhcpConfig : Type;
  model_QueryLogConfigInterval : Type;
  model_StatsConfigInterval : Type;
  UserRules_String : UserRules -> string
}.

(** *** resty: clients, requests, responses *)

(** [resty.User] *)
Record User : Type := { User_Username : string; User_Password : string }.

Inductive RedirectPolicy : Type :=
| DefaultRedirectPolicy
| NoRedirectPolicy
| FlexibleRedirectPolicy (noOfRedirect : Z).

(** [tls.Config], with the one field [New] sets. *)
Record tls_Config : Type := { tls_InsecureSkipVerify : bool }.

(** [resty.Client], with the settings [New] touches. *)
Record resty_Client : Type := {
  BaseURL : string;
  DisableWarn : bool;
  TLSClientConfig : option tls_Config;
  Client_UserInfo : option User;
  Client_RedirectPolicy : RedirectPolicy
}.

(** [resty.New()] *)
Definition resty_New : resty_Client :=
  {| BaseURL := ""; DisableWarn := false; TLSClientConfig := None;
     Client_UserInfo := None; Client_RedirectPolicy := DefaultRedirectPolicy |}.

Definition SetBaseURL (u : string) (c : resty_Client) : resty_Client :=
  {| BaseURL := u; DisableWarn := DisableWarn c;
     TLSClientConfig := TLSClientConfig c;
     Client_UserInfo := Client_UserInfo c;
     Client_RedirectPolicy := Client_RedirectPolicy c |}.

Definition SetDisableWarn (d : bool) (c : resty_Client) : resty_Client :=
  {| BaseURL := BaseURL c; DisableWarn := d;
     TLSClientConfig := TLSClientConfig c;
     Client_UserInfo := Client_UserInfo c;
     Client_RedirectPolicy := Client_RedirectPolicy c |}.

Definition SetTLSClientConfig (t : tls_Config) (c : resty_Client) : resty_Client :=
  {| BaseURL := BaseURL c; DisableWarn := DisableWarn c;
     TLSClientConfig := Some t;
     Client_UserInfo := Client_UserInfo c;
     Client_RedirectPolicy := Client_RedirectPolicy c |}.

Definition SetBasicAuth (username password : string) (c : resty_Client)
  : resty_Client :=
  {| BaseURL := BaseURL c; DisableWarn := DisableWarn c;
     TLSClientConfig := TLSClientConfig c;
     Client_UserInfo :=
       Some {| User_Username := username; User_Password := password |};
     Client_RedirectPolicy := Client_RedirectPolicy c |}.

Definition SetRedirectPolicy (p : RedirectPolicy) (c : resty_Client)
  : resty_Client :=
  {| BaseURL := BaseURL c; DisableWarn := DisableWarn c;
     TLSClientConfig := TLSClientConfig c;
     Client_UserInfo := Client_UserInfo c;
     Client_RedirectPolicy := p |}.


(** The HTTP response as resty hands it back: [StatusCode()], [Status()],
    [Header()] and [Body()].  When no HTTP response was read (a network
    failure) resty still returns its wrapper, with status code [0], an
    empty status line, no headers and an empty body. *)
Record Response : Type := {
  resp_StatusCode : Z;
  resp_Status : string;
  resp_Header : string -> list string;
  resp_Body : string
}.

(** [http.Header.Get]: the first value stored under the key, or [""]. *)
Definition Header_Get (h : string -> list string) (key : string) : string :=
  match h key with
  | [] => ""
  | v :: _ => v
  end.

Definition http_StatusOK : Z := 200.
Definition http_StatusFound : Z := 302.

(** What [req.Get(url)] and [req.Post(url)] return: the pair
    [(resp *resty.Response, err error)].  [doGet] tests [resp] against
    [nil], so the response is an [option]: it is [None] when resty gave
    up before any round trip, and resty's wrapper after a round trip,
    failed or not. *)
Record Outcome : Type := {
  resp : option Response;
  err : option string
}.

Inductive Method : Type := GET | POST.

(** The Go type a read stores its decoded answer in ([SetResult]). *)
Inductive ResultTarget : Type :=
| Result_Status
| Result_RewriteEntries
| Result_EnableConfig
| Result_FilteringStatus
| Result_BlockedServicesArray
| Result_Clients
| Result_QueryLogConfig
| Result_StatsConfig
| Result_AccessList
| Result_DNSConfig
| Result_DhcpStatus.

(** zap's sugared logger: a name and the key/value context added by
    [With]; a log line keeps its level, its context and its message. *)
Record Logger : Type := {
  Logger_name : string;
  Logger_context : list (string * any)
}.

Inductive Level : Type := DebugLevel | InfoLevel.

Record LogEntry : Type := {
  LogEntry_level : Level;
  LogEntry_logger : Logger;
  LogEntry_message : string
}.

Definition GetLogger (name : string) : Logger :=
  {| Logger_name := name; Logger_context := [] |}.

Definition With (lg : Logger) (kv : list (string * any)) : Logger :=
  {| Logger_name := Logger_name lg;
     Logger_context := Logger_context lg ++ kv |}.

(** [var l = log.GetLogger("client")] *)
Definition l : Logger := GetLogger "client".

(** [const envRedirectPolicyNoOfRedirects] *)
Definition envRedirectPolicyNoOfRedirects : string :=
  "REDIRECT_POLICY_NO_OF_REDIRECTS".

(** [type client struct { client *resty.Client; log ...; host string }] *)
Record client : Type := {
  cl_client : resty_Client;
  cl_log : Logger;
  cl_host : string
}.

(** [func (cl *client) Host() string] *)
Definition Host (cl : client) : string := cl_host cl.

Section Requests.

Context {model : Model}.

(** The value handed to [SetBody], by its Go type.  The access list, the
    DNS configuration and the DHCP configuration are handed over by
    pointer and are the value pointed to: a nil pointer is no body resty
    can send (see [doPost_nil_body]). *)
Inductive Payload : Type :=
| Body_RewriteEntry (e : RewriteEntry)
| Body_Filter (f : Filter)
| Body_FilterUpdate (fu : FilterUpdate)
| Body_RefreshFilter (r : RefreshFilter)
| Body_Protection (p : Protection)
| Body_string (s : string)
| Body_FilteringConfig (c : FilteringConfig)
| Body_BlockedServicesArray (s : BlockedServicesArray)
| Body_Client (c : model_Client)
| Body_ClientUpdate (name : model_ClientName) (data : option model_Client)
| Body_ClientDelete (name : option string)
| Body_QueryLogConfig (enabled : option bool)
    (interval : option model_QueryLogConfigInterval) (anonymizeClientIp : option bool)
| Body_StatsConfig (interval : option model_StatsConfigInterval)
| Body_InitialConfiguration (cfg : InitialConfiguration)
| Body_AccessList (list : model_AccessList)
| Body_DNSConfig (config : model_DNSConfig)
| Body_DhcpConfig (config : model_DhcpConfig)
| Body_DhcpStaticLease (lease : model_DhcpStaticLease).

(** [resty.Request], with the fields [client.go] sets. *)
Record Request : Type := {
  Request_UserInfo : option User;
  Request_Body : option Payload;
  Request_Result : option ResultTarget;
  Request_Trace : bool
}.

Definition EnableTrace (r : Request) : Request :=
  {| Request_UserInfo := Request_UserInfo r; Request_Body := Request_Body r;
     Request_Result := Request_Result r; Request_Trace := true |}.

Definition SetBody (b : Payload) (r : Request) : Request :=
  {| Request_UserInfo := Request_UserInfo r; Request_Body := Some b;
     Request_Result := Request_Result r; Request_Trace := Request_Trace r |}.

Definition SetResult (t : ResultTarget) (r : Request) : Request :=
  {| Request_UserInfo := Request_UserInfo r; Request_Body := Request_Body r;
     Request_Result := Some t; Request_Trace := Request_Trace r |}.

(** The assignment [req.UserInfo = u]. *)
Definition set_UserInfo (u : option User) (r : Request) : Request :=
  {| Request_UserInfo := u; Request_Body := Request_Body r;
     Request_Result := Request_Result r; Request_Trace := Request_Trace r |}.

(** One HTTP call: the request, the resty client it is executed by, the
    verb and the path. *)
Record Call : Type := {
  Call_client : resty_Client;
  Call_method : Method;
  Call_url : string;
  Call_request : Request
}.

End Requests.

(** The outside world, as resty shows it to this package:
    - [R] is resty's [R()], the fresh request of a client;
    - [roundTrip] executes a call against the appliance, which answers
      and moves to a new state. *)
Class Resty {model : Model} : Type := {
  World : Type;
  R : resty_Client -> Request;
  roundTrip : World -> Call -> Outcome * World
}.

(** Go's library functions [New] relies on. *)
Record url_URL : Type := {
  url_Scheme : string;
  url_Host : string;
  url_Path : string;
  url_RawQuery : string;
  url_Fragment : string
}.

Class GoLib : Type := {
  url_Parse : string -> url_URL + string;
  url_String : url_URL -> string;
  path_Clean : string -> string;
  strconv_Atoi : string -> Z + string
}.

(** *** The monad of remote operations *)

(** How a Go function ends: it returns, or it panics (here: a method
    called on a [nil] response reads a field of its receiver). *)
Inductive Exit (A : Type) : Type :=
| Returned (a : A)
| Panicked.

Arguments Returned {A} a.
Arguments Panicked {A}.

Section Monad.

Context {model : Model} {resty : Resty}.

(** One run of a computation from a state of the world: how it ended,
    the calls it issued with the answer to each (oldest first), the log
    lines it wrote, and the state of the world it left. *)
Record Run (A : Type) : Type := {
  exit : Exit A;
  calls : list (Call * Outcome);
  logs : list LogEntry;
  world : World
}.

Arguments exit {A} _.
Arguments calls {A} _.
Arguments logs {A} _.
Arguments world {A} _.

Definition M (A : Type) : Type := World -> Run A.

Definition ret {A : Type} (a : A) : M A :=
  fun w => {| exit := Returned a; calls := []; logs := []; world := w |}.

Definition panic {A : Type} : M A :=
  fun w => {| exit := Panicked; calls := []; logs := []; world := w |}.

Definition bind {A B : Type} (m : M A) (k : A -> M B) : M B :=
  fun w =>
    let r := m w in
    match exit r with
    | Panicked =>
        {| exit := Panicked; calls := calls r; logs := logs r;
           world := world r |}
    | Returned a =>
        let r' := k a (world r) in
        {| exit := exit r'; calls := calls r ++ calls r';
           logs := logs r ++ logs r'; world := world r' |}
    end.

(** Reading through a pointer: [nil] panics. *)
Definition deref {A : Type} (p : option A) : M A :=
  match p with
  | Some a => ret a
  | None => panic
  end.

Definition write (lv : Level) (lg : Logger) (msg : string) : M unit :=
  fun w =>
    {| exit := Returned tt; calls := [];
       logs := [ {| LogEntry_level := lv; LogEntry_logger := lg;
                    LogEntry_message := msg |} ];
       world := w |}.

Definition Debug (lg : Logger) (msg : string) : M unit := write DebugLevel lg msg.
Definition Info (lg : Logger) (msg : string) : M unit := write InfoLevel lg msg.

(** Executing a call: the appliance answers and the call is recorded. *)
Definition execute (c : Call) : M Outcome :=
  fun w =>
    let ow := roundTrip w c in
    {| exit := Returned (fst ow); calls := [(c, fst ow)]; logs := [];
       world := snd ow |}.

(** [req.Get(url)] and [req.Post(url)], for a request of client [c]. *)
Definition Request_Get (c : resty_Client) (req : Request) (url : string)
  : M Outcome :=
  execute {| Call_client := c; Call_method := GET; Call_url := url;
             Call_request := req |}.

Definition Request_Post (c : resty_Client) (req : Request) (url : string)
  : M Outcome :=
  execute {| Call_client := c; Call_method := POST; Call_url := url;
             Call_request := req |}.

End Monad.

Arguments exit {model resty A} _.
Arguments calls {model resty A} _.
Arguments logs {model resty A} _.
Arguments world {model resty A} _.

Notation "x <- m ;; k" := (bind m (fun x => k))
  (at level 61, m at next level, right associativity).
Notation "m ;; k" := (bind m (fun _ => k))
  (at level 61, right associativity).

Section Operations.

Context {model : Model} {resty : Resty}.

(** A [for ... range] loop whose body returns an error, left at the first
    error: [for _, x := range xs { err := body(x); if err != nil { return
    err } }; return nil]. *)
Fixpoint forRange {A : Type} (body : A -> M (option error)) (xs : list A)
  : M (option error) :=
  match xs with
  | [] => ret None
  | x :: rest =>
      err <- body x ;;
      match err with
      | Some e => ret (Some e)
      | None => forRange body rest
      end
  end.

(** *** [doGet] and [doPost] *)

Definition doGet (cl : client) (req : Request) (url : string)
  : M (option error) :=
  let rl := With (cl_log cl)
              [("method", Any string "GET"); ("path", Any string url)] in
  let rl := match Client_UserInfo (cl_client cl) with
            | Some u => With rl [("username", Any string (User_Username u))]
            | None => rl
            end in
  Debug rl "do get" ;;
  o <- Request_Get (cl_client cl) req url ;;
  match err o with
  | Some e =>
      let report :=
        r <- deref (resp o) ;;
        Debug (With rl [("status", Any Z (resp_StatusCode r));
                        ("body", Any string (resp_Body r));
                        ("error", Any error (Foreign e))])
              "error in do get" ;;
        ret (Some (Foreign e)) in
      match resp o with
      | Some r =>
          if resp_StatusCode r =? http_StatusFound then
            let loc := Header_Get (resp_Header r) "Location" in
            if (loc =? "/install.html")%string
            then ret (Some ErrSetupNeeded)
            else report
          else report
      | None => report
      end
  | None =>
      r <- deref (resp o) ;;
      Debug (With rl [("status", Any Z (resp_StatusCode r));
                      ("body", Any string (resp_Body r))])
            "got response" ;;
      if negb (resp_StatusCode r =? http_StatusOK)
      then ret (Some (errors_New (resp_Status r)))
      else ret None
  end.

Definition doPost (cl : client) (req : Request) (url : string)
  : M (option error) :=
  let rl := With (cl_log cl)
              [("method", Any string "POST"); ("path", Any string url)] in
  let rl := match Client_UserInfo (cl_client cl) with
            | Some u => With rl [("username", Any string (User_Username u))]
            | None => rl
            end in
  Debug rl "do post" ;;
  o <- Request_Post (cl_client cl) req url ;;
  match err o with
  | Some e =>
      r <- deref (resp o) ;;
      Debug (With rl [("status", Any Z (resp_StatusCode r));
                      ("body", Any string (resp_Body r));
                      ("error", Any error (Foreign e))])
            "error in do post" ;;
      ret (Some (Foreign e))
  | None =>
      r <- deref (resp o) ;;
      Debug (With rl [("status", Any Z (resp_StatusCode r));
                      ("body", Any string (resp_Body r))])
            "got response" ;;
      if negb (resp_StatusCode r =? http_StatusOK)
      then ret (Some (errors_New (resp_Status r)))
      else ret None
  end.

(** [doPost] on a request whose body is a nil pointer.  resty looks
    inside the body while it prepares the request, so [req.Post] panics:
    after the first log line of [doPost], before anything is sent and
    with nothing handed back. *)
Definition doPost_nil_body (cl : client) (url : string) : M (option error) :=
  let rl := With (cl_log cl)
              [("method", Any string "POST"); ("path", Any string url)] in
  let rl := match Client_UserInfo (cl_client cl) with
            | Some u => With rl [("username", Any string (User_Username u))]
            | None => rl
            end in
  Debug rl "do post" ;;
  panic.

(** *** The operations of the [Client] interface

    A read returns the pair of the decoded answer and the error of
    [doGet].  The answer is the object given to [SetResult], which resty
    fills in; the functions below are the error of the pair. *)

Definition Status (cl : client) : M (option error) :=
  doGet cl (SetResult Result_Status (EnableTrace (R (cl_client cl)))) "status".

Definition RewriteList (cl : client) : M (option error) :=
  doGet cl (SetResult Result_RewriteEntries (EnableTrace (R (cl_client cl))))
        "/rewrite/list".

Definition AddRewriteEntries (cl : client) (entries : list RewriteEntry)
  : M (option error) :=
  forRange (fun e =>
    Info (With (cl_log cl) [("domain", Any string (Domain e));
                            ("answer", Any string (Answer e))])
         "Add rewrite entry" ;;
    doPost cl (SetBody (Body_RewriteEntry e) (EnableTrace (R (cl_client cl))))
           "/rewrite/add") entries.

Definition DeleteRewriteEntries (cl : client) (entries : list RewriteEntry)
  : M (option error) :=
  forRange (fun e =>
    Info (With (cl_log cl) [("domain", Any string (Domain e));
                            ("answer", Any string (Answer e))])
         "Delete rewrite entry" ;;
    doPost cl (SetBody (Body_RewriteEntry e) (EnableTrace (R (cl_client cl))))
           "/rewrite/delete") entries.

Definition toggleStatus (cl : client) (mode : string) : M (option error) :=
  doGet cl (SetResult Result_EnableConfig (EnableTrace (R (cl_client cl))))
        ("/" ++ mode ++ "/status").

Definition toggleBool (cl : client) (mode : string) (enable : bool)
  : M (option error) :=
  Info (With (cl_log cl) [("enable", Any bool enable)]) ("Toggle " ++ mode) ;;
  let target := if enable then "enable" else "disable" in
  doPost cl (EnableTrace (R (cl_client cl))) ("/" ++ mode ++ "/" ++ target).

Definition SafeBrowsing (cl : client) : M (option error) :=
  toggleStatus cl "safebrowsing".

Definition ToggleSafeBrowsing (cl : client) (enable : bool) : M (option error) :=
  toggleBool cl "safebrowsing" enable.

Definition Parental (cl : client) : M (option error) :=
  toggleStatus cl "parental".

Definition ToggleParental (cl : client) (enable : bool) : M (option error) :=
  toggleBool cl "parental" enable.

Definition SafeSearch (cl : client) : M (option error) :=
  toggleStatus cl "safesearch".

Definition ToggleSafeSearch (cl : client) (enable : bool) : M (option error) :=
  toggleBool cl "safesearch" enable.

Definition Filtering (cl : client) : M (option error) :=
  doGet cl (SetResult Result_FilteringStatus (EnableTrace (R (cl_client cl))))
        "/filtering/status".

Definition AddFilters (cl : client) (whitelist : bool) (filters : list Filter)
  : M (option error) :=
  forRange (fun f =>
    Info (With (cl_log cl) [("url", Any string (Filter_URL f));
                            ("whitelist", Any bool whitelist);
                            ("enabled", Any bool (Filter_Enabled f))])
         "Add filter" ;;
    let ff := {| Filter_ID := 0; Filter_Name := Filter_Name f;
                 Filter_URL := Filter_URL f; Filter_Whitelist := whitelist;
                 Filter_Enabled := false |} in
    doPost cl (SetBody (Body_Filter ff) (EnableTrace (R (cl_client cl))))
           "/filtering/add_url") filters.

Definition DeleteFilters (cl : client) (whitelist : bool) (filters : list Filter)
  : M (option error) :=
  forRange (fun f =>
    Info (With (cl_log cl) [("url", Any string (Filter_URL f));
                            ("whitelist", Any bool whitelist);
                            ("enabled", Any bool (Filter_Enabled f))])
         "Delete filter" ;;
    let ff := {| Filter_ID := 0; Filter_Name := "";
                 Filter_URL := Filter_URL f; Filter_Whitelist := whitelist;
                 Filter_Enabled := false |} in
    doPost cl (SetBody (Body_Filter ff) (EnableTrace (R (cl_client cl))))
           "/filtering/remove_url") filters.

Definition UpdateFilters (cl : client) (whitelist : bool) (filters : list Filter)
  : M (option error) :=
  forRange (fun f =>
    Info (With (cl_log cl) [("url", Any string (Filter_URL f));
                            ("whitelist", Any bool whitelist);
                            ("enabled", Any bool (Filter_Enabled f))])
         "Update filter" ;;
    let fu := {| FilterUpdate_Whitelist := whitelist;
                 FilterUpdate_URL := Filter_URL f;
                 FilterUpdate_Data :=
                   {| Filter_ID := Filter_ID f; Filter_Name := Filter_Name f;
                      Filter_URL := Filter_URL f;
                      Filter_Whitelist := whitelist;
                      Filter_Enabled := Filter_Enabled f |} |} in
    doPost cl (SetBody (Body_FilterUpdate fu) (EnableTrace (R (cl_client cl))))
           "/filtering/set_url") filters.

Definition RefreshFilters (cl : client) (whitelist : bool) : M (option error) :=
  Info (With (cl_log cl) [("whitelist", Any bool whitelist)]) "Refresh filter" ;;
  doPost cl (SetBody (Body_RefreshFilter
                        {| RefreshFilter_Whitelist := whitelist |})
                     (EnableTrace (R (cl_client cl))))
         "/filtering/refresh".

Definition ToggleProtection (cl : client) (enable : bool) : M (option error) :=
  Info (With (cl_log cl) [("enable", Any bool enable)]) "Toggle protection" ;;
  doPost cl (SetBody (Body_Protection {| ProtectionEnabled := enable |})
                     (EnableTrace (R (cl_client cl))))
         "/dns_config".

Definition SetCustomRules (cl : client) (rules : UserRules) : M (option error) :=
  Info (With (cl_log cl) [("rules", Any Z (Z.of_nat (length rules)))])
       "Set user rules" ;;
  doPost cl (SetBody (Body_string (UserRules_String rules))
                     (EnableTrace (R (cl_client cl))))
         "/filtering/set_rules".

Definition ToggleFiltering (cl : client) (enabled : bool) (interval : float64)
  : M (option error) :=
  Info (With (cl_log cl) [("enabled", Any bool enabled);
                          ("interval", Any float64 interval)])
       "Toggle filtering" ;;
  doPost cl (SetBody (Body_FilteringConfig
                        {| FilteringConfig_EnableConfig :=
                             {| Enabled := enabled |};
                           FilteringConfig_IntervalConfig :=
                             {| Interval := interval |} |})
                     (EnableTrace (R (cl_client cl))))
         "/filtering/config".

Definition BlockedServices (cl : client) : M (option error) :=
  doGet cl (SetResult Result_BlockedServicesArray
                      (EnableTrace (R (cl_client cl))))
        "/blocked_services/list".

Definition SetBlockedServices (cl : client) (services : BlockedServicesArray)
  : M (option error) :=
  Info (With (cl_log cl) [("services", Any Z (Z.of_nat (length services)))])
       "Set services" ;;
  doPost cl (SetBody (Body_BlockedServicesArray services)
                     (EnableTrace (R (cl_client cl))))
         "/blocked_services/set".

Definition Clients (cl : client) : M (option error) :=
  doGet cl (SetResult Result_Clients (EnableTrace (R (cl_client cl))))
        "/clients".

Definition AddClients (cl : client) (clients : list model_Client) : M (option error) :=
  forRange (fun c =>
    Info (With (cl_log cl) [("name", Any model_ClientName (Client_Name c))])
         "Add client" ;;
    doPost cl (SetBody (Body_Client c) (EnableTrace (R (cl_client cl))))
           "/clients/add") clients.

Definition UpdateClients (cl : client) (clients : list model_Client)
  : M (option error) :=
  forRange (fun c =>
    Info (With (cl_log cl) [("name", Any model_ClientName (Client_Name c))])
         "Update client" ;;
    doPost cl (SetBody (Body_ClientUpdate (Client_Name c) (Some c))
                       (EnableTrace (R (cl_client cl))))
           "/clients/update") clients.

Definition DeleteClients (cl : client) (clients : list string)
  : M (option error) :=
  forRange (fun c =>
    Info (With (cl_log cl) [("name", Any string c)]) "Delete client" ;;
    doPost cl (SetBody (Body_ClientDelete (Some c))
                       (EnableTrace (R (cl_client cl))))
           "/clients/delete") clients.

Definition QueryLogConfig (cl : client) : M (option error) :=
  doGet cl (SetResult Result_QueryLogConfig (EnableTrace (R (cl_client cl))))
        "/querylog_info".

Definition SetQueryLogConfig (cl : client) (enabled : bool)
  (interval : model_QueryLogConfigInterval) (anonymizeClientIP : bool)
  : M (option error) :=
  Info (With (cl_log cl)
          [("enabled", Any bool enabled);
           ("interval", Any model_QueryLogConfigInterval interval);
           ("anonymizeClientIP", Any bool anonymizeClientIP)])
       "Set query log config" ;;
  doPost cl (SetBody (Body_QueryLogConfig (Some enabled) (Some interval)
                                          (Some anonymizeClientIP))
                     (EnableTrace (R (cl_client cl))))
         "/querylog_config".

Definition StatsConfig (cl : client) : M (option error) :=
  doGet cl (SetResult Result_StatsConfig (EnableTrace (R (cl_client cl))))
        "/stats_info".

Definition SetStatsConfig (cl : client) (i : model_StatsConfigInterval)
  : M (option error) :=
  Info (With (cl_log cl) [("interval", Any model_StatsConfigInterval i)])
       "Set stats config" ;;
  doPost cl (SetBody (Body_StatsConfig (Some i))
                     (EnableTrace (R (cl_client cl))))
         "/stats_config".

Definition Setup (cl : client) : M (option error) :=
  Info (cl_log cl) "Setup new AdguardHome instance" ;;
  let cfg := {| Web := {| Ip := "0.0.0.0"; Port := 3000 |};
                Dns := {| Ip := "0.0.0.0"; Port := 53 |};
                cfg_Username := ""; cfg_Password := "" |} in
  let cfg := match Client_UserInfo (cl_client cl) with
             | Some u =>
                 {| Web := Web cfg; Dns := Dns cfg;
                    cfg_Username := User_Username u;
                    cfg_Password := User_Password u |}
             | None => cfg
             end in
  let req := SetBody (Body_InitialConfiguration cfg)
                     (EnableTrace (R (cl_client cl))) in
  let req := set_UserInfo None req in
  doPost cl req "/install/configure".

Definition AccessList (cl : client) : M (option error) :=
  doGet cl (SetResult Result_AccessList (EnableTrace (R (cl_client cl))))
        "/access/list".

Definition SetAccessList (cl : client) (list : option model_AccessList)
  : M (option error) :=
  Info (cl_log cl) "Set access list" ;;
  match list with
  | Some a =>
      doPost cl (SetBody (Body_AccessList a) (EnableTrace (R (cl_client cl))))
             "/access/set"
  | None => doPost_nil_body cl "/access/set"
  end.

Definition DNSConfig (cl : client) : M (option error) :=
  doGet cl (SetResult Result_DNSConfig (EnableTrace (R (cl_client cl))))
        "/dns_info".

Definition SetDNSConfig (cl : client) (config : option model_DNSConfig)
  : M (option error) :=
  Info (cl_log cl) "Set dns config list" ;;
  match config with
  | Some c =>
      doPost cl (SetBody (Body_DNSConfig c) (EnableTrace (R (cl_client cl))))
             "/dns_config"
  | None => doPost_nil_body cl "/dns_config"
  end.

Definition DHCPStatus (cl : client) : M (option error) :=
  doGet cl (SetResult Result_DhcpStatus (EnableTrace (R (cl_client cl))))
        "/dhcp/status".

Definition SetDHCPConfig (cl : client) (config : option model_DhcpConfig)
  : M (option error) :=
  Info (cl_log cl) "Set dhcp server config" ;;
  match config with
  | Some c =>
      doPost cl (SetBody (Body_DhcpConfig c) (EnableTrace (R (cl_client cl))))
             "/dhcp/set_config"
  | None => doPost_nil_body cl "/dhcp/set_config"
  end.

Definition AddDHCPStaticLeases (cl : client) (leases : list model_DhcpStaticLease)
  : M (option error) :=
  forRange (fun l =>
    Info (With (cl_log cl) [("mac", DhcpStaticLease_Mac l);
                            ("ip", DhcpStaticLease_Ip l);
                            ("hostname", DhcpStaticLease_Hostname l)])
         "Add static dhcp lease" ;;
    doPost cl (SetBody (Body_DhcpStaticLease l) (EnableTrace (R (cl_client cl))))
           "/dhcp/add_static_lease") leases.

Definition DeleteDHCPStaticLeases (cl : client) (leases : list model_DhcpStaticLease)
  : M (option error) :=
  forRange (fun l =>
    Info (With (cl_log cl) [("mac", DhcpStaticLease_Mac l);
                            ("ip", DhcpStaticLease_Ip l);
                            ("hostname", DhcpStaticLease_Hostname l)])
         "Delete static dhcp lease" ;;
    doPost cl (SetBody (Body_DhcpStaticLease l) (EnableTrace (R (cl_client cl))))
           "/dhcp/remove_static_lease") leases.

(** The methods of interface [Client] that call the appliance, as data:
    the reads, each built on [doGet], and the mutations (add, update,
    delete, set, toggle, and [Setup]), each built on [doPost].  [Host]
    is the one method of the interface that issues no call. *)
Inductive ReadOp : Type :=
| Op_Status
| Op_RewriteList
| Op_Filtering
| Op_SafeBrowsing
| Op_Parental
| Op_SafeSearch
| Op_BlockedServices
| Op_Clients
| Op_QueryLogConfig
| Op_StatsConfig
| Op_AccessList
| Op_DNSConfig
| Op_DHCPStatus.

Inductive MutationOp : Type :=
| Op_ToggleProtection (enable : bool)
| Op_AddRewriteEntries (e : list RewriteEntry)
| Op_DeleteRewriteEntries (e : list RewriteEntry)
| Op_ToggleFiltering (enabled : bool) (interval : float64)
| Op_AddFilters (whitelist : bool) (e : list Filter)
| Op_DeleteFilters (whitelist : bool) (e : list Filter)
| Op_UpdateFilters (whitelist : bool) (e : list Filter)
| Op_RefreshFilters (whitelist : bool)
| Op_SetCustomRules (rules : UserRules)
| Op_ToggleSafeBrowsing (enable : bool)
| Op_ToggleParental (enable : bool)
| Op_ToggleSafeSearch (enable : bool)
| Op_SetBlockedServices (services : BlockedServicesArray)
| Op_AddClients (clients : list model_Client)
| Op_UpdateClients (clients : list model_Client)
| Op_DeleteClients (clients : list string)
| Op_SetQueryLogConfig (enabled : bool)
    (interval : model_QueryLogConfigInterval) (anonymizeClientIP : bool)
| Op_SetStatsConfig (interval : model_StatsConfigInterval)
| Op_Setup
| Op_SetAccessList (list : option model_AccessList)
| Op_SetDNSConfig (config : option model_DNSConfig)
| Op_SetDHCPConfig (config : option model_DhcpConfig)
| Op_AddDHCPStaticLeases (leases : list model_DhcpStaticLease)
| Op_DeleteDHCPStaticLeases (leases : list model_DhcpStaticLease).

Definition callRead (cl : client) (op : ReadOp) : M (option error) :=
  match op with
  | Op_Status => Status cl
  | Op_RewriteList => RewriteList cl
  | Op_Filtering => Filtering cl
  | Op_SafeBrowsing => SafeBrowsing cl
  | Op_Parental => Parental cl
  | Op_SafeSearch => SafeSearch cl
  | Op_BlockedServices => BlockedServices cl
  | Op_Clients => Clients cl
  | Op_QueryLogConfig => QueryLogConfig cl
  | Op_StatsConfig => StatsConfig cl
  | Op_AccessList => AccessList cl
  | Op_DNSConfig => DNSConfig cl
  | Op_DHCPStatus => DHCPStatus cl
  end.

Definition callMutation (cl : client) (op : MutationOp) : M (option error) :=
  match op with
  | Op_ToggleProtection enable => ToggleProtection cl enable
  | Op_AddRewriteEntries e => AddRewriteEntries cl e
  | Op_DeleteRewriteEntries e => DeleteRewriteEntries cl e
  | Op_ToggleFiltering enabled interval => ToggleFiltering cl enabled interval
  | Op_AddFilters whitelist e => AddFilters cl whitelist e
  | Op_DeleteFilters whitelist e => DeleteFilters cl whitelist e
  | Op_UpdateFilters whitelist e => UpdateFilters cl whitelist e
  | Op_RefreshFilters whitelist => RefreshFilters cl whitelist
  | Op_SetCustomRules rules => SetCustomRules cl rules
  | Op_ToggleSafeBrowsing enable => ToggleSafeBrowsing cl enable
  | Op_ToggleParental enable => ToggleParental cl enable
  | Op_ToggleSafeSearch enable => ToggleSafeSearch cl enable
  | Op_SetBlockedServices services => SetBlockedServices cl services
  | Op_AddClients clients => AddClients cl clients
  | Op_UpdateClients clients => UpdateClients cl clients
  | Op_DeleteClients clients => DeleteClients cl clients
  | Op_SetQueryLogConfig enabled interval anonymizeClientIP =>
      SetQueryLogConfig cl enabled interval anonymizeClientIP
  | Op_SetStatsConfig interval => SetStatsConfig cl interval
  | Op_Setup => Setup cl
  | Op_SetAccessList list => SetAccessList cl list
  | Op_SetDNSConfig config => SetDNSConfig cl config
  | Op_SetDHCPConfig config => SetDHCPConfig cl config
  | Op_AddDHCPStaticLeases leases => AddDHCPStaticLeases cl leases
  | Op_DeleteDHCPStaticLeases leases => DeleteDHCPStaticLeases cl leases
  end.

(** How [doGet] and [doPost] judge the answer to a call: it succeeded
    when resty reports no error and the status code is 200. *)
Definition succeeded (o : Outcome) : bool :=
  match err o, resp o with
  | None, Some r => resp_StatusCode r =? http_StatusOK
  | _, _ => false
  end.

(** The answer [doGet] reads as "setup needed": the request failed and
    the response at hand is a 302 whose [Location] is ["/install.html"]. *)
Definition setup_redirect (o : Outcome) : Prop :=
  exists e r,
    err o = Some e /\ resp o = Some r /\
    resp_StatusCode r = http_StatusFound /\
    Header_Get (resp_Header r) "Location" = "/install.html".

End Operations.

(** *** [New] *)

Section Construction.

Context {golib : GoLib}.

(** The local [apiURL] of [New]. *)
Definition apiURL (config : AdGuardInstance) : string :=
  if (APIPath config =? "")%string
  then URL config ++ "/control"
  else URL config ++ "/" ++ APIPath config.

(** Go's [%q] of a string without special characters. *)
Definition quoted (s : string) : string :=
  String "034"%char (s ++ String "034"%char EmptyString).

(** [func New(config types.AdGuardInstance) (Client, error)]; the process
    environment read by [os.LookupEnv] is the argument [os_LookupEnv]. *)
Definition New (os_LookupEnv : string -> option string)
  (config : AdGuardInstance) : option client * option error :=
  match url_Parse (apiURL config) with
  | inr e => (None, Some (Foreign e))
  | inl u =>
      let u := {| url_Scheme := url_Scheme u; url_Host := url_Host u;
                  url_Path := path_Clean (url_Path u);
                  url_RawQuery := url_RawQuery u;
                  url_Fragment := url_Fragment u |} in
      let cl := SetDisableWarn true (SetBaseURL (url_String u) resty_New) in
      let cl := if InsecureSkipVerify config
                then SetTLSClientConfig {| tls_InsecureSkipVerify := true |} cl
                else cl in
      let cl := if negb (Username config =? "")%string
                   && negb (Password config =? "")%string
                then SetBasicAuth (Username config) (Password config) cl
                else cl in
      let finish (cl : resty_Client) :=
        (Some {| cl_host := url_Host u; cl_client := cl;
                 cl_log := With l [("host", Any string (url_Host u))] |},
         None) in
      match os_LookupEnv envRedirectPolicyNoOfRedirects with
      | Some v =>
          match strconv_Atoi v with
          | inr _ =>
              (None,
               Some (fmt_Errorf
                       ("error parsing env var "
                        ++ quoted envRedirectPolicyNoOfRedirects
                        ++ " value must be an integer")))
          | inl nbr =>
              finish (SetRedirectPolicy (FlexibleRedirectPolicy nbr) cl)
          end
      | None => finish (SetRedirectPolicy NoRedirectPolicy cl)
      end
  end.

End Construction.

(** *** The endpoints of the interface

    The path each operation addresses, and the number of items it has
    to deliver, read off the methods above. *)

Section Endpoints.

Context {model : Model}.

Definition readPath (op : ReadOp) : string :=
  match op with
  | Op_Status => "status"
  | Op_RewriteList => "/rewrite/list"
  | Op_Filtering => "/filtering/status"
  | Op_SafeBrowsing => "/safebrowsing/status"
  | Op_Parental => "/parental/status"
  | Op_SafeSearch => "/safesearch/status"
  | Op_BlockedServices => "/blocked_services/list"
  | Op_Clients => "/clients"
  | Op_QueryLogConfig => "/querylog_info"
  | Op_StatsConfig => "/stats_info"
  | Op_AccessList => "/access/list"
  | Op_DNSConfig => "/dns_info"
  | Op_DHCPStatus => "/dhcp/status"
  end.

Definition endpoint (op : MutationOp) : string :=
  match op with
  | Op_ToggleProtection _ => "/dns_config"
  | Op_AddRewriteEntries _ => "/rewrite/add"
  | Op_DeleteRewriteEntries _ => "/rewrite/delete"
  | Op_ToggleFiltering _ _ => "/filtering/config"
  | Op_AddFilters _ _ => "/filtering/add_url"
  | Op_DeleteFilters _ _ => "/filtering/remove_url"
  | Op_UpdateFilters _ _ => "/filtering/set_url"
  | Op_RefreshFilters _ => "/filtering/refresh"
  | Op_SetCustomRules _ => "/filtering/set_rules"
  | Op_ToggleSafeBrowsing enable =>
      if enable then "/safebrowsing/enable" else "/safebrowsing/disable"
  | Op_ToggleParental enable =>
      if enable then "/parental/enable" else "/parental/disable"
  | Op_ToggleSafeSearch enable =>
      if enable then "/safesearch/enable" else "/safesearch/disable"
  | Op_SetBlockedServices _ => "/blocked_services/set"
  | Op_AddClients _ => "/clients/add"
  | Op_UpdateClients _ => "/clients/update"
  | Op_DeleteClients _ => "/clients/delete"
  | Op_SetQueryLogConfig _ _ _ => "/querylog_config"
  | Op_SetStatsConfig _ => "/stats_config"
  | Op_Setup => "/install/configure"
  | Op_SetAccessList _ => "/access/set"
  | Op_SetDNSConfig _ => "/dns_config"
  | Op_SetDHCPConfig _ => "/dhcp/set_config"
  | Op_AddDHCPStaticLeases _ => "/dhcp/add_static_lease"
  | Op_DeleteDHCPStaticLeases _ => "/dhcp/remove_static_lease"
  end.

(** The items of a batch; a mutation that is not a batch has one. *)
Definition items (op : MutationOp) : nat :=
  match op with
  | Op_AddRewriteEntries e | Op_DeleteRewriteEntries e => length e
  | Op_AddFilters _ e | Op_DeleteFilters _ e | Op_UpdateFilters _ e => length e
  | Op_AddClients c | Op_UpdateClients c => length c
  | Op_DeleteClients c => length c
  | Op_AddDHCPStaticLeases ls | Op_DeleteDHCPStaticLeases ls => length ls
  | _ => 1%nat
  end.

(** The mutations that are handed a nil pointer for their body. *)
Definition nil_argument (op : MutationOp) : bool :=
  match op with
  | Op_SetAccessList None => true
  | Op_SetDNSConfig None => true
  | Op_SetDHCPConfig None => true
  | _ => false
  end.

(** The credentials resty puts in the [Authorization] header of a call:
    those of the request when it has its own, else those of the client
    the request is executed by ([SetBasicAuth]). *)
Definition basicAuth (c : Call) : option User :=
  match Request_UserInfo (Call_request c) with
  | Some u => Some u
  | None => Client_UserInfo (Call_client c)
  end.

End Endpoints.

(** The error [doPost] makes of a failed answer: the error of the
    transport when there is one, else the status line of a response
    whose status code is not 200. *)
Definition post_error (o : Outcome) (e : error) : Prop :=
  (exists x r, err o = Some x /\ resp o = Some r /\ e = Foreign x) \/
  (exists r, err o = None /\ resp o = Some r /\
             resp_StatusCode r <> http_StatusOK /\
             e = errors_New (resp_Status r)).

(** A batch method [f] splits at [nil]: run on [xs ++ ys], it does what
    it does on [xs] and, when that returns [nil], goes on with what it
    does on [ys] in the world left behind; when the run on [xs] does
    not return [nil], nothing of [ys] is touched. *)
Definition splits_at_nil {model : Model} {resty : Resty} {A : Type}
  (f : list A -> M (option error)) : Prop :=
  forall (xs ys : list A) (w : World),
    match exit (f xs w) with
    | Returned None =>
        exit (f (xs ++ ys)%list w) = exit (f ys (world (f xs w))) /\
        calls (f (xs ++ ys)%list w)
        = (calls (f xs w) ++ calls (f ys (world (f xs w))))%list
    | _ =>
        exit (f (xs ++ ys)%list w) = exit (f xs w) /\
        calls (f (xs ++ ys)%list w) = calls (f xs w)
    end.

End client.

(** ** Test doubles

    A minimal implementation of the parameters, used to run the
    operations on concrete inputs. *)

Module fake.

Import client.

(** Package [model] reduced to what the examples need: a client profile
    is its name, a lease is its MAC address. *)
Definition testModel : Model := {|
  model_Client := string;
  model_ClientName := string;
  Client_Name := fun c => c;
  model_DhcpStaticLease := string;
  DhcpStaticLease_Mac := fun m => Any string m;
  DhcpStaticLease_Ip := fun _ => Any string "";
  DhcpStaticLease_Hostname := fun _ => Any string "";
  model_AccessList := list string;
  model_DNSConfig := unit;
  model_DhcpConfig := unit;
  model_QueryLogConfigInterval := Z;
  model_StatsConfigInterval := Z;
  UserRules_String := String.concat (String "010"%char EmptyString)
|}.

(** The answer when the script has run out: the appliance is unreachable. *)
Definition unreachable : Outcome :=
  {| resp := Some {| resp_StatusCode := 0; resp_Status := "";
                     resp_Header := fun _ => []; resp_Body := "" |};
     err := Some "dial tcp: connection refused" |}.

(** A scripted appliance: the state of the world is the list of answers
    still to be given, one per call, whatever the call.  A fresh request
    has no credentials of its own. *)
Definition scripted : @Resty testModel := {|
  World := list Outcome;
  R := fun c =>
    {| Request_UserInfo := None; Request_Body := None;
       Request_Result := None; Request_Trace := false |};
  roundTrip := fun w _ =>
    match w with
    | [] => (unreachable, [])
    | o :: w' => (o, w')
    end
|}.

(** A completed round trip with the given status and body. *)
Definition response (code : Z) (line body : string) : Response :=
  {| resp_StatusCode := code; resp_Status := line;
     resp_Header := fun _ => []; resp_Body := body |}.

Definition answer (code : Z) (line body : string) : Outcome :=
  {| resp := Some (response code line body); err := None |}.

(** A redirect to [loc] that resty refused to follow. *)
Definition refused_redirect (loc : string) : Outcome :=
  {| resp := Some {| resp_StatusCode := 302; resp_Status := "302 Found";
                     resp_Header := fun k =>
                       if (k =? "Location")%string then [loc] else [];
                     resp_Body := "" |};
     err := Some "auto redirect is disabled" |}.

(** A response that was read but whose decoding failed. *)
Definition undecodable : Outcome :=
  {| resp := Some {| resp_StatusCode := 200; resp_Status := "200 OK";
                     resp_Header := fun _ => []; resp_Body := "<html>" |};
     err := Some "invalid character '<' looking for beginning of value" |}.

(** Two failures that differ in their body only. *)
Definition locked : Outcome :=
  answer 500 "500 Internal Server Error" "database is locked".

Definition full : Outcome :=
  answer 500 "500 Internal Server Error" "disk full".

Definition testClient : client :=
  {| cl_client :=
       SetRedirectPolicy NoRedirectPolicy
         (SetBasicAuth "admin" "secret"
            (SetDisableWarn true
               (SetBaseURL "http://replica:3000/control" resty_New)));
     cl_log := With l [("host", Any string "replica:3000")];
     cl_host := "replica:3000" |}.

Definition entry (domain answer : string) : RewriteEntry :=
  {| Domain := domain; Answer := answer |}.

Definition ok : Outcome := answer 200 "200 OK" "OK".

Definition no_content : Outcome := answer 204 "204 No Content" "".

(** A fresh request of [testClient] that asks for the status. *)
Definition status_request : @Request testModel :=
  SetResult Result_Status
            (EnableTrace (@R testModel scripted (cl_client testClient))).

Definition nas : RewriteEntry := entry "nas.lan" "10.0.0.2".
Definition printer : RewriteEntry := entry "printer.lan" "10.0.0.3".
Definition tv : RewriteEntry := entry "tv.lan" "10.0.0.4".

(** The call [AddRewriteEntries] issues for one entry. *)
Definition add_call (cl : client) (e : RewriteEntry) : @Call testModel :=
  {| Call_client := cl_client cl; Call_method := POST;
     Call_url := "/rewrite/add";
     Call_request :=
       SetBody (Body_RewriteEntry e)
               (EnableTrace (@R testModel scripted (cl_client cl))) |}.

(** An instance whose URL holds a line feed. *)
Definition brokenInstance : AdGuardInstance :=
  {| URL := String "010"%char "http://replica:3000"; APIPath := "";
     Username := "admin"; Password := "secret";
     InsecureSkipVerify := false |}.

(** A stand-in for [net/url], [path] and [strconv] that knows one rule
    of each: a URL holding an ASCII control character does not parse (any
    other string is filed under [Path]); [Clean] and [String] change
    nothing; [Atoi] reads a non-empty run of decimal digits. *)
Definition isCTL (c : ascii) : bool :=
  (nat_of_ascii c <? 32)%nat || (nat_of_ascii c =? 127)%nat.

Fixpoint hasCTL (s : string) : bool :=
  match s with
  | EmptyString => false
  | String c rest => isCTL c || hasCTL rest
  end.

Fixpoint digits (acc : Z) (s : string) : option Z :=
  match s with
  | EmptyString => Some acc
  | String c rest =>
      let n := nat_of_ascii c in
      if ((48 <=? n) && (n <=? 57))%nat
      then digits (10 * acc + Z.of_nat (n - 48)) rest
      else None
  end.

Definition testLib : GoLib := {|
  url_Parse := fun s =>
    if hasCTL s
    then inr "net/url: invalid control character in URL"
    else inl {| url_Scheme := ""; url_Host := ""; url_Path := s;
                url_RawQuery := ""; url_Fragment := "" |};
  url_String := fun u => url_Path u;
  path_Clean := fun p => p;
  strconv_Atoi := fun s =>
    match s with
    | EmptyString => inr "invalid syntax"
    | _ => match digits 0 s with
           | Some n => inl n
           | None => inr "invalid syntax"
           end
    end
|}.

(** Two filters that agree on name and URL and on nothing else. *)
Definition adlist : Filter :=
  {| Filter_ID := 7; Filter_Name := "ads"; Filter_URL := "https://lists/ads.txt";
     Filter_Whitelist := false; Filter_Enabled := true |}.

Definition adlist' : Filter :=
  {| Filter_ID := 9; Filter_Name := "ads"; Filter_URL := "https://lists/ads.txt";
     Filter_Whitelist := true; Filter_Enabled := false |}.

(** A response-less failure: resty gave up before any round trip. *)
Definition not_sent : Outcome :=
  {| resp := None; err := Some "unsupported protocol scheme" |}.

(** Instances and environments for [New]. *)
Definition fullInstance : AdGuardInstance :=
  {| URL := "http://replica:3000"; APIPath := "";
     Username := "admin"; Password := "secret";
     InsecureSkipVerify := false |}.

Definition halfInstance : AdGuardInstance :=
  {| URL := "http://replica:3000"; APIPath := "";
     Username := "admin"; Password := "";
     InsecureSkipVerify := true |}.

Definition noEnv : string -> option string := fun _ => None.

Definition envRedirects (v : string) : string -> option string :=
  fun k => if (k =? envRedirectPolicyNoOfRedirects)%string
           then Some v else None.

End fake.

(** ** Properties of package [pointer] *)

Module pointer_spec.

Import pointer.

(** C10.  The pointer helpers round-trip, with fixed defaults for [nil]:
    [FromB(ToB(b)) = b] for every boolean [b]; [FromB(nil) = false]; for
    every query-log interval [i], [FromQueryLogConfigInterval(&i) = i];
    and [FromQueryLogConfigInterval(nil) = 0]. *)
Theorem pointer_round_trip :
  (forall b : bool, FromB (ToB b) = b) /\
  FromB None = false /\
  (forall (T : Type) (zero i : T),
      FromQueryLogConfigInterval T zero (Some i) = i) /\
  (forall (T : Type) (zero : T),
      FromQueryLogConfigInterval T zero None = zero).
Proof.
  split; [ | split; [ | split ] ].
  - intros b. unfold ToB, FromB. reflexivity.
  - unfold FromB. reflexivity.
  - intros T zero i. unfold FromQueryLogConfigInterval. reflexivity.
  - intros T zero. unfold FromQueryLogConfigInterval. reflexivity.
Qed.

(** X13.  [FromB] does not tell [nil] from a pointer to [false]: going
    back with [ToB] restores every pointer but [nil], and [FromB] gives
    [true] for a pointer to [true] only.  In the same way
    [FromQueryLogConfigInterval] gives [0] for [nil] and for a pointer to
    [0], and for nothing else. *)
Theorem FromB_collapses_nil :
  (forall p : option bool, ToB (FromB p) = p <-> p <> None) /\
  (forall p : option bool, FromB p = true <-> p = ToB true) /\
  (forall (T : Type) (zero : T) (p : option T),
      FromQueryLogConfigInterval T zero p = zero <->
      p = None \/ p = Some zero).
Proof.
  split; [ | split ].
  - intros [b|]; unfold ToB, FromB; split.
    + discriminate.
    + reflexivity.
    + discriminate.
    + intros H. contradiction H. reflexivity.
  - intros [b|]; unfold ToB, FromB; split.
    + intros ->. reflexivity.
    + intros H. injection H as ->. reflexivity.
    + discriminate.
    + discriminate.
  - intros T zero [v|]; unfold FromQueryLogConfigInterval; split.
    + intros ->. right. reflexivity.
    + intros [H|H]; [ discriminate H | injection H as ->; reflexivity ].
    + intros _. left. reflexivity.
    + reflexivity.
Qed.

End pointer_spec.

(** ** Properties of package [client] *)

Module client_spec.

Import client.
Local Open Scope list_scope.

Section Runs.

Context {model : Model} {resty : Resty}.

(** *** Sequencing *)

Lemma exit_bind {A B : Type} (m : M A) (k : A -> M B) (w : World) :
  exit (bind m k w) =
  match exit (m w) with
  | Returned a => exit (k a (world (m w)))
  | Panicked => Panicked
  end.
Proof. unfold bind. destruct (exit (m w)); reflexivity. Qed.

Lemma calls_bind {A B : Type} (m : M A) (k : A -> M B) (w : World) :
  calls (bind m k w) =
  match exit (m w) with
  | Returned a => calls (m w) ++ calls (k a (world (m w)))
  | Panicked => calls (m w)
  end.
Proof. unfold bind. destruct (exit (m w)); reflexivity. Qed.

Lemma world_bind {A B : Type} (m : M A) (k : A -> M B) (w : World) :
  world (bind m k w) =
  match exit (m w) with
  | Returned a => world (k a (world (m w)))
  | Panicked => world (m w)
  end.
Proof. unfold bind. destruct (exit (m w)); reflexivity. Qed.

Lemma logs_bind {A B : Type} (m : M A) (k : A -> M B) (w : World) :
  logs (bind m k w) =
  match exit (m w) with
  | Returned a => logs (m w) ++ logs (k a (world (m w)))
  | Panicked => logs (m w)
  end.
Proof. unfold bind. destruct (exit (m w)); reflexivity. Qed.

(** A log line changes neither the calls nor the world. *)
Lemma exit_write_then {A : Type} lv lg msg (k : M A) (w : World) :
  exit (bind (write lv lg msg) (fun _ => k) w) = exit (k w).
Proof. reflexivity. Qed.

Lemma calls_write_then {A : Type} lv lg msg (k : M A) (w : World) :
  calls (bind (write lv lg msg) (fun _ => k) w) = calls (k w).
Proof. reflexivity. Qed.

Lemma world_write_then {A : Type} lv lg msg (k : M A) (w : World) :
  world (bind (write lv lg msg) (fun _ => k) w) = world (k w).
Proof. reflexivity. Qed.

(** *** One call: [doGet] and [doPost] *)

Ltac open_call :=
  unfold Request_Get, Request_Post, execute, Debug, write, deref, bind,
    ret, panic; cbn.

Ltac by_answer o :=
  destruct o as [[r|] [e|]]; cbn;
  repeat match goal with
         | |- context [negb ?b] => destruct b eqn:?; cbn
         | |- context [if ?b then _ else _] => destruct b eqn:?; cbn
         end;
  try reflexivity; try congruence.

Lemma doPost_calls (cl : client) (req : Request) (url : string) (w : World) :
  let c := Build_Call (cl_client cl) POST url req in
  calls (doPost cl req url w) = [(c, fst (roundTrip w c))].
Proof.
  intros c. unfold doPost. open_call. fold c.
  by_answer (fst (roundTrip w c)).
Qed.

Lemma doPost_world (cl : client) (req : Request) (url : string) (w : World) :
  let c := Build_Call (cl_client cl) POST url req in
  world (doPost cl req url w) = snd (roundTrip w c).
Proof.
  intros c. unfold doPost. open_call. fold c.
  by_answer (fst (roundTrip w c)).
Qed.

Lemma doGet_calls (cl : client) (req : Request) (url : string) (w : World) :
  let c := Build_Call (cl_client cl) GET url req in
  calls (doGet cl req url w) = [(c, fst (roundTrip w c))].
Proof.
  intros c. unfold doGet. open_call. fold c.
  by_answer (fst (roundTrip w c)).
Qed.

(** What [doPost] returns, by the answer to its call. *)
Lemma doPost_exit (cl : client) (req : Request) (url : string) (w : World) :
  let o := fst (roundTrip w (Build_Call (cl_client cl) POST url req)) in
  exit (doPost cl req url w) =
  match resp o, err o with
  | None, _ => Panicked
  | Some r, Some e => Returned (Some (Foreign e))
  | Some r, None =>
      if resp_StatusCode r =? http_StatusOK then Returned None
      else Returned (Some (errors_New (resp_Status r)))
  end.
Proof.
  intros o. unfold doPost. open_call. fold o.
  by_answer o.
Qed.

(** What [doGet] returns, by the answer to its call. *)
Lemma doGet_exit (cl : client) (req : Request) (url : string) (w : World) :
  let o := fst (roundTrip w (Build_Call (cl_client cl) GET url req)) in
  exit (doGet cl req url w) =
  match resp o, err o with
  | None, _ => Panicked
  | Some r, Some e =>
      if (resp_StatusCode r =? http_StatusFound)
         && (Header_Get (resp_Header r) "Location" =? "/install.html")%string
      then Returned (Some ErrSetupNeeded)
      else Returned (Some (Foreign e))
  | Some r, None =>
      if resp_StatusCode r =? http_StatusOK then Returned None
      else Returned (Some (errors_New (resp_Status r)))
  end.
Proof.
  intros o. unfold doGet. open_call. fold o.
  by_answer o.
Qed.

(** Every read is one [doGet]. *)
Lemma callRead_doGet (cl : client) (op : ReadOp) :
  exists req url, callRead cl op = doGet cl req url.
Proof.
  destruct op; cbn;
    unfold Status, RewriteList, Filtering, SafeBrowsing, Parental,
      SafeSearch, toggleStatus, BlockedServices, Clients, QueryLogConfig,
      StatsConfig, AccessList, DNSConfig, DHCPStatus;
    eexists; eexists; reflexivity.
Qed.

Lemma setup_redirect_test (o : Outcome) (r : Response) (e : string) :
  resp o = Some r -> err o = Some e ->
  (((resp_StatusCode r =? http_StatusFound)
    && (Header_Get (resp_Header r) "Location" =? "/install.html")%string)
   = true <-> setup_redirect o).
Proof.
  intros Hr He. unfold setup_redirect. split.
  - intros H. apply andb_true_iff in H. destruct H as [Hs Hl].
    exists e, r. repeat split; try assumption.
    + apply Z.eqb_eq. exact Hs.
    + apply String.eqb_eq. exact Hl.
  - intros (e' & r' & _ & Hr' & Hs & Hl).
    rewrite Hr in Hr'. injection Hr' as <-.
    apply andb_true_iff. split.
    + apply Z.eqb_eq. exact Hs.
    + apply String.eqb_eq. exact Hl.
Qed.

(** C2.  A read returns [ErrSetupNeeded] if and only if its request
    failed on a redirect to the provisioning page: the response at hand
    has status 302 Found and its [Location] header is ["/install.html"].
    Any other failed request (another redirect, a transport failure) gives
    back the error of the transport, unchanged. *)
Theorem read_setup_needed_iff (cl : client) (op : ReadOp) (w : World) :
  exists c o,
    calls (callRead cl op w) = [(c, o)] /\
    Call_method c = GET /\
    (exit (callRead cl op w) = Returned (Some ErrSetupNeeded)
     <-> setup_redirect o) /\
    (forall e r,
        err o = Some e -> resp o = Some r ->
        ~ (resp_StatusCode r = http_StatusFound /\
           Header_Get (resp_Header r) "Location" = "/install.html") ->
        exit (callRead cl op w) = Returned (Some (Foreign e))).
Proof.
  destruct (callRead_doGet cl op) as (req & url & ->).
  set (c := Build_Call (cl_client cl) GET url req).
  exists c, (fst (roundTrip w c)).
  split; [ apply doGet_calls | ].
  split; [ reflexivity | ].
  rewrite doGet_exit. fold c.
  destruct (fst (roundTrip w c)) as [[r|] [e|]] eqn:Ho; cbn.
  - pose proof (setup_redirect_test {| resp := Some r; err := Some e |} r e
                  eq_refl eq_refl) as T.
    split.
    + split.
      * intros H. apply T.
        destruct (_ && _); [ reflexivity | discriminate H ].
      * intros H. apply T in H. rewrite H. reflexivity.
    + intros e' r' He' Hr' Hn. injection He' as <-. injection Hr' as <-.
      destruct (_ && _) eqn:Hb; [ | reflexivity ].
      exfalso. apply Hn. apply andb_true_iff in Hb. destruct Hb as [Hs Hl].
      split; [ apply Z.eqb_eq; exact Hs | apply String.eqb_eq; exact Hl ].
  - split.
    + split.
      * destruct (_ =? _); discriminate.
      * intros (e' & r' & He' & _). discriminate He'.
    + intros e' r' He'. discriminate He'.
  - split.
    + split.
      * discriminate.
      * intros (e' & r' & _ & Hr' & _). discriminate Hr'.
    + intros e' r' _ Hr'. discriminate Hr'.
  - split.
    + split.
      * discriminate.
      * intros (e' & r' & He' & _). discriminate He'.
    + intros e' r' He'. discriminate He'.
Qed.

(** [doGet] and [doPost] return [nil] if and only if the round trip
    completed and the status code is exactly 200; a response with any
    other status code, 204 and the other 2xx codes included, makes both
    return an error. *)
Theorem success_iff_status_200
  (cl : client) (req : Request) (url : string) (w : World) :
  let og := fst (roundTrip w (Build_Call (cl_client cl) GET url req)) in
  let op := fst (roundTrip w (Build_Call (cl_client cl) POST url req)) in
  (exit (doGet cl req url w) = Returned None <->
   err og = None /\
   exists r, resp og = Some r /\ resp_StatusCode r = http_StatusOK) /\
  (exit (doPost cl req url w) = Returned None <->
   err op = None /\
   exists r, resp op = Some r /\ resp_StatusCode r = http_StatusOK) /\
  (forall r, resp og = Some r -> resp_StatusCode r <> http_StatusOK ->
             exists e, exit (doGet cl req url w) = Returned (Some e)) /\
  (forall r, resp op = Some r -> resp_StatusCode r <> http_StatusOK ->
             exists e, exit (doPost cl req url w) = Returned (Some e)).
Proof.
  intros og op. rewrite doGet_exit, doPost_exit. fold og op.
  split; [ | split; [ | split ] ].
  - destruct og as [[r|] [e|]]; cbn.
    + split.
      * destruct (_ && _); discriminate.
      * intros [H _]. discriminate H.
    + split.
      * intros H. split; [ reflexivity | ]. exists r. split; [ reflexivity | ].
        destruct (resp_StatusCode r =? http_StatusOK) eqn:Hs;
          [ apply Z.eqb_eq; exact Hs | discriminate H ].
      * intros [_ (r' & Hr' & Hs)]. injection Hr' as <-.
        apply Z.eqb_eq in Hs. rewrite Hs. reflexivity.
    + split; [ discriminate | intros [_ (r' & Hr' & _)]; discriminate Hr' ].
    + split; [ discriminate | intros [_ (r' & Hr' & _)]; discriminate Hr' ].
  - destruct op as [[r|] [e|]]; cbn.
    + split; [ discriminate | intros [H _]; discriminate H ].
    + split.
      * intros H. split; [ reflexivity | ]. exists r. split; [ reflexivity | ].
        destruct (resp_StatusCode r =? http_StatusOK) eqn:Hs;
          [ apply Z.eqb_eq; exact Hs | discriminate H ].
      * intros [_ (r' & Hr' & Hs)]. injection Hr' as <-.
        apply Z.eqb_eq in Hs. rewrite Hs. reflexivity.
    + split; [ discriminate | intros [_ (r' & Hr' & _)]; discriminate Hr' ].
    + split; [ discriminate | intros [_ (r' & Hr' & _)]; discriminate Hr' ].
  - intros r Hr Hs. rewrite Hr. apply Z.eqb_neq in Hs.
    destruct (err og).
    + destruct (_ && _); eexists; reflexivity.
    + rewrite Hs. eexists; reflexivity.
  - intros r Hr Hs. rewrite Hr. apply Z.eqb_neq in Hs.
    destruct (err op).
    + eexists; reflexivity.
    + rewrite Hs. eexists; reflexivity.
Qed.

(** *** Batches *)

Lemma doPost_succeeded (cl : client) (req : Request) (url : string) (w : World) :
  succeeded (fst (roundTrip w (Build_Call (cl_client cl) POST url req))) = true
  <-> exit (doPost cl req url w) = Returned None.
Proof.
  rewrite doPost_exit. unfold succeeded.
  destruct (fst (roundTrip w _)) as [[r|] [e|]]; cbn;
    try (split; discriminate).
  destruct (resp_StatusCode r =? http_StatusOK);
    split; intros H; try reflexivity; discriminate H.
Qed.

Lemma forRange_cons {A : Type} (body : A -> M (option error)) x rest :
  forRange body (x :: rest) =
  bind (body x) (fun err => match err with
                            | Some e => ret (Some e)
                            | None => forRange body rest
                            end).
Proof. reflexivity. Qed.

(** An iteration that returns [nil] hands over to the rest of the list. *)
Lemma forRange_continue {A : Type} (body : A -> M (option error)) x rest w :
  exit (body x w) = Returned None ->
  exit (forRange body (x :: rest) w)
  = exit (forRange body rest (world (body x w))) /\
  calls (forRange body (x :: rest) w)
  = calls (body x w) ++ calls (forRange body rest (world (body x w))).
Proof.
  intros H. rewrite forRange_cons, exit_bind, calls_bind, H. split; reflexivity.
Qed.

(** An iteration that does not return [nil] ends the loop: nothing is
    issued for the rest of the list. *)
Lemma forRange_break {A : Type} (body : A -> M (option error)) x rest w :
  exit (body x w) <> Returned None ->
  exit (forRange body (x :: rest) w) = exit (body x w) /\
  calls (forRange body (x :: rest) w) = calls (body x w).
Proof.
  intros H. rewrite forRange_cons, exit_bind, calls_bind.
  destruct (exit (body x w)) as [[e|]|]; cbn.
  - split; [ reflexivity | apply app_nil_r ].
  - contradiction H. reflexivity.
  - split; reflexivity.
Qed.

(** The loops of this package: a log line, then one [doPost]. *)
Lemma posting_exit {A : Type} (cl : client) (lg : A -> Logger) msg
  (req : A -> Request) url (x : A) (w : World) :
  exit (bind (Info (lg x) msg) (fun _ => doPost cl (req x) url) w)
  = exit (doPost cl (req x) url w).
Proof. reflexivity. Qed.

Lemma posting_calls {A : Type} (cl : client) (lg : A -> Logger) msg
  (req : A -> Request) url (x : A) (w : World) :
  calls (bind (Info (lg x) msg) (fun _ => doPost cl (req x) url) w)
  = [(Build_Call (cl_client cl) POST url (req x),
      fst (roundTrip w (Build_Call (cl_client cl) POST url (req x))))].
Proof. rewrite <- doPost_calls. reflexivity. Qed.

Lemma posting_world {A : Type} (cl : client) (lg : A -> Logger) msg
  (req : A -> Request) url (x : A) (w : World) :
  world (bind (Info (lg x) msg) (fun _ => doPost cl (req x) url) w)
  = snd (roundTrip w (Build_Call (cl_client cl) POST url (req x))).
Proof. rewrite <- doPost_world. reflexivity. Qed.

(** When every call of a batch succeeds, the batch issues one call per
    item, in the order of the list, and returns [nil]. *)
Lemma posting_all {A : Type} (cl : client) (lg : A -> Logger) msg
  (req : A -> Request) url (xs : list A) (w : World) :
  let run := forRange (fun x => bind (Info (lg x) msg)
                                     (fun _ => doPost cl (req x) url)) xs w in
  Forall (fun co => succeeded (snd co) = true) (calls run) ->
  map fst (calls run)
  = map (fun x => Build_Call (cl_client cl) POST url (req x)) xs /\
  exit run = Returned None.
Proof.
  revert w. induction xs as [|x rest IH]; intros w run Hall.
  - split; reflexivity.
  - subst run.
    set (body := fun x => bind (Info (lg x) msg)
                               (fun _ => doPost cl (req x) url)) in *.
    assert (Hx : exit (body x w) = Returned None).
    { unfold body. rewrite posting_exit. apply doPost_succeeded.
      rewrite forRange_cons, calls_bind in Hall.
      unfold body in Hall at 2 3. rewrite posting_calls in Hall.
      destruct (exit (body x w)); inversion Hall; assumption. }
    destruct (forRange_continue body x rest w Hx) as [He Hc].
    rewrite He, Hc. rewrite Hc in Hall.
    apply Forall_app in Hall. destruct Hall as [_ Hrest].
    destruct (IH _ Hrest) as [IHc IHe].
    split; [ | exact IHe ].
    rewrite map_app, IHc. unfold body at 1. rewrite posting_calls.
    reflexivity.
Qed.

(** C5.  Rewrite-rule mutations take one call per item: when every call
    succeeds, [AddRewriteEntries] (resp. [DeleteRewriteEntries]) on a list
    of [n] entries issues exactly [n] requests to ["/rewrite/add"] (resp.
    ["/rewrite/delete"]), one per entry, in the order of the list. *)
Theorem rewrite_entries_one_call_per_item
  (cl : client) (entries : list RewriteEntry) (w : World) :
  let body e := SetBody (Body_RewriteEntry e) (EnableTrace (R (cl_client cl))) in
  (Forall (fun co => succeeded (snd co) = true)
          (calls (AddRewriteEntries cl entries w)) ->
   map fst (calls (AddRewriteEntries cl entries w))
   = map (fun e => Build_Call (cl_client cl) POST "/rewrite/add" (body e))
         entries /\
   length (calls (AddRewriteEntries cl entries w)) = length entries /\
   exit (AddRewriteEntries cl entries w) = Returned None) /\
  (Forall (fun co => succeeded (snd co) = true)
          (calls (DeleteRewriteEntries cl entries w)) ->
   map fst (calls (DeleteRewriteEntries cl entries w))
   = map (fun e => Build_Call (cl_client cl) POST "/rewrite/delete" (body e))
         entries /\
   length (calls (DeleteRewriteEntries cl entries w)) = length entries /\
   exit (DeleteRewriteEntries cl entries w) = Returned None).
Proof.
  intros body. split; intros Hall.
  - unfold AddRewriteEntries in *.
    apply posting_all in Hall. destruct Hall as [Hc He].
    split; [ exact Hc | split; [ | exact He ] ].
    rewrite <- (length_map fst), Hc, length_map. reflexivity.
  - unfold DeleteRewriteEntries in *.
    apply posting_all in Hall. destruct Hall as [Hc He].
    split; [ exact Hc | split; [ | exact He ] ].
    rewrite <- (length_map fst), Hc, length_map. reflexivity.
Qed.

(** A batch of three whose second call fails: the third is not issued. *)
Lemma posting_stops {A : Type} (cl : client) (lg : A -> Logger) msg
  (req : A -> Request) url (x1 x2 x3 : A) (w : World) :
  let call x := Build_Call (cl_client cl) POST url (req x) in
  let a1 := roundTrip w (call x1) in
  let a2 := roundTrip (snd a1) (call x2) in
  let run := forRange (fun x => bind (Info (lg x) msg)
                                     (fun _ => doPost cl (req x) url))
                      [x1; x2; x3] w in
  succeeded (fst a1) = true ->
  succeeded (fst a2) = false ->
  calls run = [(call x1, fst a1); (call x2, fst a2)] /\
  exit run = exit (doPost cl (req x2) url (snd a1)) /\
  exit run <> Returned None.
Proof.
  intros call a1 a2 run H1 H2. subst run.
  set (body := fun x => bind (Info (lg x) msg)
                             (fun _ => doPost cl (req x) url)).
  assert (B1 : exit (body x1 w) = Returned None).
  { unfold body. rewrite posting_exit. apply doPost_succeeded. exact H1. }
  assert (W1 : world (body x1 w) = snd a1).
  { unfold body. apply posting_world. }
  assert (B2 : exit (body x2 (snd a1)) <> Returned None).
  { unfold body. rewrite posting_exit. intros H.
    apply doPost_succeeded in H. unfold a2, call in H2.
    rewrite H in H2. discriminate H2. }
  destruct (forRange_continue body x1 [x2; x3] w B1) as [He Hc].
  rewrite W1 in He, Hc.
  destruct (forRange_break body x2 [x3] (snd a1) B2) as [He' Hc'].
  rewrite He, Hc, He', Hc'.
  split; [ | split ].
  - unfold body. rewrite !posting_calls. reflexivity.
  - unfold body. apply posting_exit.
  - exact B2.
Qed.

(** C1 (amended).  A batch add stops at the first failing item.  For
    every three items given to [AddRewriteEntries] or to [AddClients]
    such that the call for item 1 succeeds and the call for item 2
    fails: exactly the calls for items 1 and 2 are issued, in this order,
    none is issued for item 3, and the batch ends the way the call for
    item 2 ended, which is not [nil]. *)
Theorem batch_add_stops_at_first_failure (cl : client) (w : World) :
  (forall e1 e2 e3 : RewriteEntry,
      let call e :=
        Build_Call (cl_client cl) POST "/rewrite/add"
          (SetBody (Body_RewriteEntry e) (EnableTrace (R (cl_client cl)))) in
      let a1 := roundTrip w (call e1) in
      let a2 := roundTrip (snd a1) (call e2) in
      succeeded (fst a1) = true ->
      succeeded (fst a2) = false ->
      calls (AddRewriteEntries cl [e1; e2; e3] w)
      = [(call e1, fst a1); (call e2, fst a2)] /\
      exit (AddRewriteEntries cl [e1; e2; e3] w)
      = exit (doPost cl (Call_request (call e2)) "/rewrite/add" (snd a1)) /\
      exit (AddRewriteEntries cl [e1; e2; e3] w) <> Returned None) /\
  (forall c1 c2 c3 : model_Client,
      let call c :=
        Build_Call (cl_client cl) POST "/clients/add"
          (SetBody (Body_Client c) (EnableTrace (R (cl_client cl)))) in
      let a1 := roundTrip w (call c1) in
      let a2 := roundTrip (snd a1) (call c2) in
      succeeded (fst a1) = true ->
      succeeded (fst a2) = false ->
      calls (AddClients cl [c1; c2; c3] w)
      = [(call c1, fst a1); (call c2, fst a2)] /\
      exit (AddClients cl [c1; c2; c3] w)
      = exit (doPost cl (Call_request (call c2)) "/clients/add" (snd a1)) /\
      exit (AddClients cl [c1; c2; c3] w) <> Returned None).
Proof.
  split.
  - intros e1 e2 e3 call a1 a2 H1 H2.
    unfold AddRewriteEntries. apply posting_stops; assumption.
  - intros c1 c2 c3 call a1 a2 H1 H2.
    unfold AddClients. apply posting_stops; assumption.
Qed.

(** *** The setup-required signal and mutations *)

Lemma doPost_not_setup (cl : client) (req : Request) (url : string) (w : World) :
  exit (doPost cl req url w) <> Returned (Some ErrSetupNeeded).
Proof.
  rewrite doPost_exit.
  destruct (fst (roundTrip w _)) as [[r|] [e|]]; cbn; try discriminate.
  destruct (resp_StatusCode r =? http_StatusOK); discriminate.
Qed.

Lemma forRange_not_setup {A : Type} (body : A -> M (option error)) :
  (forall x w, exit (body x w) <> Returned (Some ErrSetupNeeded)) ->
  forall xs w, exit (forRange body xs w) <> Returned (Some ErrSetupNeeded).
Proof.
  intros Hbody xs. induction xs as [|x rest IH]; intros w.
  - cbn. discriminate.
  - rewrite forRange_cons, exit_bind.
    destruct (exit (body x w)) as [[e|]|] eqn:Hx.
    + cbn. rewrite <- Hx. apply Hbody.
    + apply IH.
    + discriminate.
Qed.

(** A mutation handed a nil pointer panics without a call. *)
Lemma doPost_nil_body_exit (cl : client) url (w : World) :
  exit (doPost_nil_body cl url w) = Panicked.
Proof. reflexivity. Qed.

Lemma doPost_nil_body_calls (cl : client) url (w : World) :
  calls (doPost_nil_body cl url w) = [].
Proof. reflexivity. Qed.

Lemma nil_body_exit (cl : client) lg msg url (w : World) :
  exit (bind (Info lg msg) (fun _ => doPost_nil_body cl url) w) = Panicked.
Proof. reflexivity. Qed.

Lemma nil_body_calls (cl : client) lg msg url (w : World) :
  calls (bind (Info lg msg) (fun _ => doPost_nil_body cl url) w) = [].
Proof. reflexivity. Qed.

Ltac case_pointer :=
  try match goal with o : option _ |- _ => destruct o; cbv beta iota end.

Ltac no_setup :=
  first
    [ apply doPost_not_setup
    | apply forRange_not_setup; intros ? ?; apply doPost_not_setup
    | rewrite nil_body_exit; discriminate
    | rewrite doPost_nil_body_exit; discriminate ].

(** C3 (amended).  Only reads raise the setup-required signal.  No
    mutation (add, update, delete, set, toggle, [Setup]) ever returns
    [ErrSetupNeeded]; when the request of [doPost] fails on a redirect to
    ["/install.html"], [doPost] returns the error of the transport. *)
Theorem mutation_never_setup_needed (cl : client) (w : World) :
  (forall op : MutationOp,
      exit (callMutation cl op w) <> Returned (Some ErrSetupNeeded)) /\
  (forall (req : Request) (url : string),
      let o := fst (roundTrip w (Build_Call (cl_client cl) POST url req)) in
      setup_redirect o ->
      exists e, err o = Some e /\
                exit (doPost cl req url w) = Returned (Some (Foreign e))).
Proof.
  split.
  - intros op. destruct op; cbn;
      unfold ToggleProtection, AddRewriteEntries, DeleteRewriteEntries,
        ToggleFiltering, AddFilters, DeleteFilters, UpdateFilters,
        RefreshFilters, SetCustomRules, ToggleSafeBrowsing, ToggleParental,
        ToggleSafeSearch, toggleBool, SetBlockedServices, AddClients,
        UpdateClients, DeleteClients, SetQueryLogConfig, SetStatsConfig,
        Setup, SetAccessList, SetDNSConfig, SetDHCPConfig,
        AddDHCPStaticLeases, DeleteDHCPStaticLeases;
      case_pointer; no_setup.
  - intros req url o (e & r & He & Hr & _).
    exists e. split; [ exact He | ].
    rewrite doPost_exit. fold o. rewrite Hr, He. reflexivity.
Qed.

(** *** What a failed status gives back *)

(** C4 (amended).  When a request completes with a status code other
    than 200, [doGet] and [doPost] return an error whose text is the
    status line of the response ([resp.Status()]) and nothing else.  The
    body of the response is not part of the error; it is written, next to
    the status code, to the debug log. *)
Theorem failed_status_error_is_status_line
  (cl : client) (req : Request) (url : string) (w : World) :
  let og := fst (roundTrip w (Build_Call (cl_client cl) GET url req)) in
  let op := fst (roundTrip w (Build_Call (cl_client cl) POST url req)) in
  (forall r,
      err og = None -> resp og = Some r ->
      resp_StatusCode r <> http_StatusOK ->
      exit (doGet cl req url w)
      = Returned (Some (errors_New (resp_Status r))) /\
      exists lg,
        In {| LogEntry_level := DebugLevel;
              LogEntry_logger :=
                With lg [("status", Any Z (resp_StatusCode r));
                         ("body", Any string (resp_Body r))];
              LogEntry_message := "got response" |}
           (logs (doGet cl req url w))) /\
  (forall r,
      err op = None -> resp op = Some r ->
      resp_StatusCode r <> http_StatusOK ->
      exit (doPost cl req url w)
      = Returned (Some (errors_New (resp_Status r))) /\
      exists lg,
        In {| LogEntry_level := DebugLevel;
              LogEntry_logger :=
                With lg [("status", Any Z (resp_StatusCode r));
                         ("body", Any string (resp_Body r))];
              LogEntry_message := "got response" |}
           (logs (doPost cl req url w))).
Proof.
  intros og op. split; intros r He Hr Hs; apply Z.eqb_neq in Hs.
  - split.
    + rewrite doGet_exit. fold og. rewrite Hr, He, Hs. reflexivity.
    + unfold doGet. open_call. fold og. rewrite He, Hr. cbn.
      eexists. right. left. reflexivity.
  - split.
    + rewrite doPost_exit. fold op. rewrite Hr, He, Hs. reflexivity.
    + unfold doPost. open_call. fold op. rewrite He, Hr. cbn.
      eexists. right. left. reflexivity.
Qed.

(** *** Provisioning *)

Lemma Setup_calls (cl : client) (w : World) :
  exists req,
    calls (Setup cl w)
    = [(Build_Call (cl_client cl) POST "/install/configure" req,
        fst (roundTrip w (Build_Call (cl_client cl) POST
                                     "/install/configure" req)))] /\
    Request_UserInfo req = None /\
    Request_Body req
    = Some (Body_InitialConfiguration
              {| Web := {| Ip := "0.0.0.0"; Port := 3000 |};
                 Dns := {| Ip := "0.0.0.0"; Port := 53 |};
                 cfg_Username :=
                   match Client_UserInfo (cl_client cl) with
                   | Some u => User_Username u
                   | None => ""
                   end;
                 cfg_Password :=
                   match Client_UserInfo (cl_client cl) with
                   | Some u => User_Password u
                   | None => ""
                   end |}).
Proof.
  unfold Setup. eexists. split; [ | split ].
  - unfold Info. rewrite calls_write_then. apply doPost_calls.
  - reflexivity.
  - cbn. destruct (Client_UserInfo (cl_client cl)); reflexivity.
Qed.

(** C6.  [Setup] issues exactly one call, a POST to
    ["/install/configure"], whose body is an initial configuration with
    the web interface on 0.0.0.0 port 3000 and DNS on 0.0.0.0 port 53;
    when the client has credentials, they are the user name and the
    password of that configuration. *)
Theorem Setup_one_provisioning_call (cl : client) (w : World) :
  exists c o cfg,
    calls (Setup cl w) = [(c, o)] /\
    Call_method c = POST /\
    Call_url c = "/install/configure" /\
    Request_Body (Call_request c) = Some (Body_InitialConfiguration cfg) /\
    Web cfg = {| Ip := "0.0.0.0"; Port := 3000 |} /\
    Dns cfg = {| Ip := "0.0.0.0"; Port := 53 |} /\
    (forall u, Client_UserInfo (cl_client cl) = Some u ->
               cfg_Username cfg = User_Username u /\
               cfg_Password cfg = User_Password u).
Proof.
  destruct (Setup_calls cl w) as (req & Hc & _ & Hb).
  eexists. eexists. eexists.
  split; [ exact Hc | ].
  split; [ reflexivity | ].
  split; [ reflexivity | ].
  split; [ exact Hb | ].
  split; [ reflexivity | ].
  split; [ reflexivity | ].
  intros u Hu. cbn. rewrite Hu. split; reflexivity.
Qed.

(** C9 (the code differs).  [Setup] clears the credentials of its
    request and puts those of the client in the body, but the request is
    still executed by the client that holds them: the credentials resty
    puts in the [Authorization] header of the call are those of the
    client, as for any other call. *)
Theorem Setup_call_keeps_client_credentials (cl : client) (w : World) :
  exists c o,
    calls (Setup cl w) = [(c, o)] /\
    Request_UserInfo (Call_request c) = None /\
    Call_client c = cl_client cl /\
    basicAuth c = Client_UserInfo (cl_client cl).
Proof.
  destruct (Setup_calls cl w) as (req & Hc & Hu & _).
  eexists. eexists.
  split; [ exact Hc | ].
  split; [ exact Hu | ].
  split; [ reflexivity | ].
  unfold basicAuth. cbn. rewrite Hu. reflexivity.
Qed.

End Runs.

(** *** Construction *)

Section Constructing.

Context {golib : GoLib}.

(** [New] gives the resty client the credentials of the instance when
    both the user name and the password are set. *)
Lemma New_credentials (env : string -> option string)
  (config : AdGuardInstance) (cl : client) :
  New env config = (Some cl, None) ->
  Client_UserInfo (cl_client cl)
  = if negb (Username config =? "")%string
       && negb (Password config =? "")%string
    then Some {| User_Username := Username config;
                 User_Password := Password config |}
    else None.
Proof.
  unfold New. destruct (url_Parse (apiURL config)) as [u|e];
    [ | discriminate ].
  destruct (env envRedirectPolicyNoOfRedirects) as [v|].
  - destruct (strconv_Atoi v) as [n|e]; [ | discriminate ].
    intros H. injection H as <-. cbn.
    destruct (InsecureSkipVerify config);
      destruct (negb _ && negb _); reflexivity.
  - intros H. injection H as <-. cbn.
    destruct (InsecureSkipVerify config);
      destruct (negb _ && negb _); reflexivity.
Qed.

(** C7.  A malformed instance is fatal before any call: when the URL of
    the instance, joined with the API path, does not parse, [New] returns
    the parse error and no client. *)
Theorem New_rejects_unparsable_url (env : string -> option string)
  (config : AdGuardInstance) (e : string) :
  url_Parse (apiURL config) = inr e ->
  New env config = (None, Some (Foreign e)).
Proof.
  intros H. unfold New. rewrite H. reflexivity.
Qed.

End Constructing.

(** *** The operations on concrete inputs *)

Section Examples.

Import fake.

Local Existing Instance testModel.
Local Existing Instance scripted.
Local Existing Instance testLib.

(** C1, as stated, fails.  Three entries are added while the appliance
    answers 200, 500, 200: the call for the second entry fails, and no
    call is issued for the third; the batch returns the one error, and
    the third answer is never asked for. *)
Lemma batch_add_skips_item_after_failure :
  succeeded locked = false /\
  map fst (calls (AddRewriteEntries testClient [nas; printer; tv]
                                    [ok; locked; ok]))
  = [add_call testClient nas; add_call testClient printer] /\
  ~ In (add_call testClient tv)
       (map fst (calls (AddRewriteEntries testClient [nas; printer; tv]
                                          [ok; locked; ok]))) /\
  exit (AddRewriteEntries testClient [nas; printer; tv] [ok; locked; ok])
  = Returned (Some (errors_New "500 Internal Server Error")) /\
  world (AddRewriteEntries testClient [nas; printer; tv] [ok; locked; ok])
  = [ok].
Proof.
  split; [ reflexivity | ].
  split; [ vm_compute; reflexivity | ].
  split; [ | split; vm_compute; reflexivity ].
  vm_compute. intros [H | [H | []]]; discriminate H.
Qed.

Lemma batch_add_stops_at_first_failure_witness :
  calls (AddRewriteEntries testClient [nas; printer; tv] [ok; locked; ok])
  = [(add_call testClient nas, ok); (add_call testClient printer, locked)].
Proof.
  refine (proj1 (proj1 (batch_add_stops_at_first_failure
                          testClient [ok; locked; ok])
                       nas printer tv _ _)).
  - vm_compute. reflexivity.
  - vm_compute. reflexivity.
Defined.

Lemma read_setup_needed_iff_witness :
  exit (callRead testClient Op_Status [refused_redirect "/login.html"])
  = Returned (Some (Foreign "auto redirect is disabled")).
Proof.
  destruct (@read_setup_needed_iff testModel scripted testClient Op_Status
              [refused_redirect "/login.html"]) as (c & o & Hc & _ & _ & H).
  vm_compute in Hc. injection Hc as <- <-.
  apply (H _ _ eq_refl eq_refl).
  vm_compute. intros [_ Hl]. discriminate Hl.
Defined.

(** C3, as stated, fails.  The appliance answers a mutation with a
    redirect to ["/install.html"], which resty does not follow:
    [ToggleProtection] returns the error of the transport, not
    [ErrSetupNeeded], where the read [Status] returns [ErrSetupNeeded]. *)
Lemma mutation_redirect_is_not_setup_needed :
  setup_redirect (refused_redirect "/install.html") /\
  exit (ToggleProtection testClient true [refused_redirect "/install.html"])
  = Returned (Some (Foreign "auto redirect is disabled")) /\
  exit (ToggleProtection testClient true [refused_redirect "/install.html"])
  <> Returned (Some ErrSetupNeeded) /\
  exit (Status testClient [refused_redirect "/install.html"])
  = Returned (Some ErrSetupNeeded).
Proof.
  split; [ | split; [ | split ] ].
  - eexists. eexists. repeat split.
  - vm_compute. reflexivity.
  - vm_compute. discriminate.
  - vm_compute. reflexivity.
Qed.

Lemma mutation_never_setup_needed_witness :
  exists e,
    err (refused_redirect "/install.html") = Some e /\
    exit (doPost testClient status_request "/dns_config"
                 [refused_redirect "/install.html"])
    = Returned (Some (Foreign e)).
Proof.
  refine (proj2 (mutation_never_setup_needed
                   testClient [refused_redirect "/install.html"])
                status_request "/dns_config" _).
  eexists. eexists. repeat split.
Defined.

(** C4, as stated, fails.  Two answers with status 500 and different
    bodies give the same error, whose text is the status line: the body
    cannot be read off the error, for a read and for a mutation alike. *)
Lemma failed_status_error_hides_body :
  option_map resp_Body (resp locked) <> option_map resp_Body (resp full) /\
  exit (Status testClient [locked])
  = Returned (Some (errors_New "500 Internal Server Error")) /\
  exit (Status testClient [full])
  = Returned (Some (errors_New "500 Internal Server Error")) /\
  exit (ToggleProtection testClient true [locked])
  = Returned (Some (errors_New "500 Internal Server Error")) /\
  exit (ToggleProtection testClient true [full])
  = Returned (Some (errors_New "500 Internal Server Error")).
Proof.
  split; [ vm_compute; discriminate | ].
  repeat split; vm_compute; reflexivity.
Qed.

Lemma failed_status_error_is_status_line_witness :
  exit (doGet testClient status_request "status" [locked])
  = Returned (Some (errors_New "500 Internal Server Error")).
Proof.
  refine (proj1 (proj1 (failed_status_error_is_status_line
                          testClient status_request "status" [locked])
                       (response 500 "500 Internal Server Error"
                                 "database is locked") _ _ _)).
  - reflexivity.
  - reflexivity.
  - vm_compute. discriminate.
Defined.

Lemma rewrite_entries_one_call_per_item_witness :
  map fst (calls (AddRewriteEntries testClient [nas; printer] [ok; ok]))
  = [add_call testClient nas; add_call testClient printer].
Proof.
  refine (proj1 (proj1 (rewrite_entries_one_call_per_item
                          testClient [nas; printer] [ok; ok]) _)).
  vm_compute. repeat constructor.
Defined.

Lemma success_iff_status_200_witness :
  (exists e, exit (doGet testClient status_request "status" [no_content])
             = Returned (Some e)) /\
  (exists e, exit (doPost testClient status_request "status" [no_content])
             = Returned (Some e)).
Proof.
  destruct (@success_iff_status_200 testModel scripted testClient status_request "status"
              [no_content]) as (_ & _ & Hg & Hp).
  split.
  - eapply Hg; [ reflexivity | vm_compute; discriminate ].
  - eapply Hp; [ reflexivity | vm_compute; discriminate ].
Defined.

Lemma Setup_one_provisioning_call_witness :
  exists c o cfg,
    calls (Setup testClient []) = [(c, o)] /\
    Request_Body (Call_request c) = Some (Body_InitialConfiguration cfg) /\
    cfg_Username cfg = "admin" /\ cfg_Password cfg = "secret".
Proof.
  destruct (@Setup_one_provisioning_call testModel scripted testClient [])
    as (c & o & cfg & Hc & _ & _ & Hb & _ & _ & Hu).
  exists c, o, cfg.
  split; [ exact Hc | ].
  split; [ exact Hb | ].
  exact (Hu _ eq_refl).
Defined.

(** [Setup] on a client with credentials: the request has none of its
    own, and the call is authenticated with those of the client. *)
Lemma Setup_sends_basic_auth :
  map (fun co => Request_UserInfo (Call_request (fst co)))
      (calls (Setup testClient [ok]))
  = [None] /\
  map (fun co => basicAuth (fst co)) (calls (Setup testClient [ok]))
  = [Some {| User_Username := "admin"; User_Password := "secret" |}].
Proof. split; vm_compute; reflexivity. Qed.

(** C8, as stated, fails in both directions.  A read whose answer has
    status 200 but cannot be decoded returns the error of the transport;
    a batch of no entries returns [nil] without any call, hence without
    any response. *)
Lemma status_200_neither_enough_nor_needed :
  option_map resp_StatusCode (resp undecodable) = Some 200 /\
  exit (Status testClient [undecodable])
  = Returned
      (Some (Foreign "invalid character '<' looking for beginning of value")) /\
  calls (AddRewriteEntries testClient [] []) = [] /\
  exit (AddRewriteEntries testClient [] []) = Returned None.
Proof. repeat split. Qed.

(** The error of the transport comes first: an answer with status 200
    whose decoding failed is an error, for [doGet] looks at the status
    code only when resty reports no error. *)
Lemma undecodable_answer_is_an_error :
  exit (Status testClient [undecodable])
  = Returned
      (Some (Foreign "invalid character '<' looking for beginning of value")).
Proof. vm_compute. reflexivity. Qed.

Lemma New_rejects_unparsable_url_witness :
  New (fun _ => None) brokenInstance
  = (None, Some (Foreign "net/url: invalid control character in URL")).
Proof.
  apply New_rejects_unparsable_url.
  vm_compute. reflexivity.
Defined.

End Examples.

(** *** The calls of every operation *)

Section Protocol.

Context {model : Model} {resty : Resty}.

Local Abbreviation posting cl lg msg req url :=
  (fun x => bind (Info (lg x) msg) (fun _ => doPost cl (req x) url)).

Ltac unfold_ops :=
  unfold Status, RewriteList, Filtering, SafeBrowsing, Parental, SafeSearch,
    toggleStatus, BlockedServices, Clients, QueryLogConfig, StatsConfig,
    AccessList, DNSConfig, DHCPStatus,
    ToggleProtection, AddRewriteEntries, DeleteRewriteEntries,
    ToggleFiltering, AddFilters, DeleteFilters, UpdateFilters,
    RefreshFilters, SetCustomRules, ToggleSafeBrowsing, ToggleParental,
    ToggleSafeSearch, toggleBool, SetBlockedServices, AddClients,
    UpdateClients, DeleteClients, SetQueryLogConfig, SetStatsConfig,
    Setup, SetAccessList, SetDNSConfig, SetDHCPConfig,
    AddDHCPStaticLeases, DeleteDHCPStaticLeases;
  cbv zeta.

Ltac case_bools :=
  repeat match goal with b : bool |- _ => destruct b end.

Ltac case_ptr :=
  try match goal with o : option _ |- _ => destruct o; cbv beta iota end.

(** One log line and one [doPost]: the shape of a mutation that is not
    a batch. *)
Lemma single_calls (cl : client) lg msg (req : Request) url (w : World) :
  calls (bind (Info lg msg) (fun _ => doPost cl req url) w)
  = [(Build_Call (cl_client cl) POST url req,
      fst (roundTrip w (Build_Call (cl_client cl) POST url req)))].
Proof. rewrite <- doPost_calls. reflexivity. Qed.

Lemma single_exit (cl : client) lg msg (req : Request) url (w : World) :
  exit (bind (Info lg msg) (fun _ => doPost cl req url) w)
  = exit (doPost cl req url w).
Proof. reflexivity. Qed.

Lemma forRange_calls_Forall {A : Type} (body : A -> M (option error))
  (P : Call -> Prop) :
  (forall x w, Forall P (map fst (calls (body x w)))) ->
  forall xs w, Forall P (map fst (calls (forRange body xs w))).
Proof.
  intros Hbody xs. induction xs as [|x rest IH]; intros w.
  - constructor.
  - rewrite forRange_cons, calls_bind.
    destruct (exit (body x w)) as [[e|]|].
    + cbn. rewrite app_nil_r. apply Hbody.
    + rewrite map_app. apply Forall_app. split; [ apply Hbody | apply IH ].
    + apply Hbody.
Qed.

Lemma forRange_calls_length {A : Type} (body : A -> M (option error)) :
  (forall x w, length (calls (body x w)) = 1%nat) ->
  forall xs w, (length (calls (forRange body xs w)) <= length xs)%nat.
Proof.
  intros Hbody xs. induction xs as [|x rest IH]; intros w.
  - cbn. lia.
  - rewrite forRange_cons, calls_bind.
    destruct (exit (body x w)) as [[e|]|].
    + cbn [calls ret]. rewrite app_nil_r, Hbody. cbn. lia.
    + rewrite length_app, Hbody. specialize (IH (world (body x w))).
      cbn. lia.
    + rewrite Hbody. cbn. lia.
Qed.

Lemma single_shape (cl : client) (P : Call -> Prop) lg msg req url w :
  P (Build_Call (cl_client cl) POST url req) ->
  Forall P (map fst (calls (bind (Info lg msg)
                                 (fun _ => doPost cl req url) w))).
Proof.
  intros H. rewrite single_calls. cbn. constructor; [ exact H | constructor ].
Qed.

Lemma batch_shape {A : Type} (cl : client) (P : Call -> Prop)
  (lg : A -> Logger) msg (req : A -> Request) url xs w :
  (forall x, P (Build_Call (cl_client cl) POST url (req x))) ->
  Forall P (map fst (calls (forRange (posting cl lg msg req url) xs w))).
Proof.
  intros H. apply forRange_calls_Forall. intros x w'.
  rewrite posting_calls. cbn. constructor; [ apply H | constructor ].
Qed.

Lemma single_length (cl : client) lg msg req url w :
  (length (calls (bind (Info lg msg) (fun _ => doPost cl req url) w))
   <= 1)%nat.
Proof. rewrite single_calls. cbn. lia. Qed.

Lemma batch_length {A : Type} (cl : client)
  (lg : A -> Logger) msg (req : A -> Request) url xs w :
  (length (calls (forRange (posting cl lg msg req url) xs w))
   <= length xs)%nat.
Proof.
  apply forRange_calls_length. intros x w'. rewrite posting_calls. reflexivity.
Qed.

(** X1.  A read issues exactly one call, whatever the answer: a GET on
    the path of the read, with tracing on and a result object set; it
    sets no body and leaves the credentials of the fresh request as they
    are. *)
Theorem read_issues_one_GET (cl : client) (op : ReadOp) (w : World) :
  exists req o,
    calls (callRead cl op w)
    = [(Build_Call (cl_client cl) GET (readPath op) req, o)] /\
    Request_Trace req = true /\
    Request_Result req <> None /\
    Request_Body req = Request_Body (R (cl_client cl)) /\
    Request_UserInfo req = Request_UserInfo (R (cl_client cl)).
Proof.
  destruct op; cbn [callRead readPath]; unfold_ops;
    rewrite doGet_calls; eexists; eexists;
    (split; [ reflexivity | ]); cbn; repeat split; discriminate.
Qed.

(** X2.  A mutation only ever POSTs to its own endpoint, with tracing
    on, and issues at most one call per item it is given (one call when
    it is not a batch). *)
Theorem mutation_posts_to_its_endpoint
  (cl : client) (op : MutationOp) (w : World) :
  Forall (fun c => Call_method c = POST /\
                   Call_url c = endpoint op /\
                   Request_Trace (Call_request c) = true)
         (map fst (calls (callMutation cl op w))) /\
  (length (calls (callMutation cl op w)) <= items op)%nat.
Proof.
  destruct op; cbn [callMutation endpoint items]; unfold_ops; case_ptr;
    (split;
     [ first [ apply single_shape | apply batch_shape; intros ?
             | rewrite nil_body_calls; constructor ];
       case_bools; cbn; repeat split; reflexivity
     | first [ apply single_length | apply batch_length
             | rewrite nil_body_calls; cbn; lia ] ]).
Qed.

(** *** How an operation ends *)

Lemma doGet_succeeded (cl : client) (req : Request) (url : string) (w : World) :
  succeeded (fst (roundTrip w (Build_Call (cl_client cl) GET url req))) = true
  <-> exit (doGet cl req url w) = Returned None.
Proof.
  rewrite doGet_exit. unfold succeeded.
  destruct (fst (roundTrip w _)) as [[r|] [e|]]; cbn;
    try (split; discriminate).
  - destruct (_ && _); split; discriminate.
  - destruct (resp_StatusCode r =? http_StatusOK);
      split; intros H; try reflexivity; discriminate H.
Qed.

Lemma doPost_error (cl : client) (req : Request) (url : string) (w : World) e :
  exit (doPost cl req url w) = Returned (Some e) ->
  post_error (fst (roundTrip w (Build_Call (cl_client cl) POST url req))) e.
Proof.
  rewrite doPost_exit. unfold post_error.
  destruct (fst (roundTrip w _)) as [[r|] [x|]]; cbn; try discriminate.
  - intros H. injection H as <-. left. exists x, r. repeat split.
  - destruct (resp_StatusCode r =? http_StatusOK) eqn:Hs; [ discriminate | ].
    intros H. injection H as <-. right. exists r.
    repeat split. apply Z.eqb_neq. exact Hs.
Qed.

Lemma doPost_panic (cl : client) (req : Request) (url : string) (w : World) :
  exit (doPost cl req url w) = Panicked <->
  resp (fst (roundTrip w (Build_Call (cl_client cl) POST url req))) = None.
Proof.
  rewrite doPost_exit.
  destruct (fst (roundTrip w _)) as [[r|] [x|]]; cbn;
    try (split; [ discriminate | discriminate ]);
    try (split; reflexivity).
  destruct (resp_StatusCode r =? http_StatusOK); split; discriminate.
Qed.

Lemma doGet_panic (cl : client) (req : Request) (url : string) (w : World) :
  exit (doGet cl req url w) = Panicked <->
  resp (fst (roundTrip w (Build_Call (cl_client cl) GET url req))) = None.
Proof.
  rewrite doGet_exit.
  destruct (fst (roundTrip w _)) as [[r|] [x|]]; cbn;
    try (split; reflexivity).
  - destruct (_ && _); split; discriminate.
  - destruct (resp_StatusCode r =? http_StatusOK); split; discriminate.
Qed.

(** A batch that returns [nil] has delivered every item. *)
Lemma posting_nil {A : Type} (cl : client) (lg : A -> Logger) msg
  (req : A -> Request) url (xs : list A) (w : World) :
  exit (forRange (posting cl lg msg req url) xs w) = Returned None ->
  Forall (fun co => succeeded (snd co) = true)
         (calls (forRange (posting cl lg msg req url) xs w)) /\
  length (calls (forRange (posting cl lg msg req url) xs w)) = length xs.
Proof.
  revert w. induction xs as [|x rest IH]; intros w H.
  - split; [ constructor | reflexivity ].
  - set (body := posting cl lg msg req url) in *.
    destruct (exit (body x w)) as [[e|]|] eqn:Hx.
    + destruct (forRange_break body x rest w) as [He _].
      { rewrite Hx. discriminate. }
      rewrite He, Hx in H. discriminate H.
    + destruct (forRange_continue body x rest w Hx) as [He Hc].
      rewrite He in H. destruct (IH _ H) as [IHa IHl].
      rewrite Hc. split.
      * apply Forall_app. split; [ | exact IHa ].
        unfold body at 1. rewrite posting_calls.
        constructor; [ | constructor ]. cbn.
        apply doPost_succeeded. rewrite <- Hx. reflexivity.
      * rewrite length_app, IHl. unfold body at 1.
        rewrite posting_calls. reflexivity.
    + destruct (forRange_break body x rest w) as [He _].
      { rewrite Hx. discriminate. }
      rewrite He, Hx in H. discriminate H.
Qed.

(** A batch that does not return [nil] ended on its last call: every
    call before it succeeded, and the batch ends like that call. *)
Lemma posting_last {A : Type} (cl : client) (lg : A -> Logger) msg
  (req : A -> Request) url (xs : list A) (w : World) :
  exit (forRange (posting cl lg msg req url) xs w) <> Returned None ->
  exists pre c w',
    calls (forRange (posting cl lg msg req url) xs w)
    = pre ++ [(c, fst (roundTrip w' c))] /\
    Forall (fun co => succeeded (snd co) = true) pre /\
    Call_method c = POST /\
    exit (forRange (posting cl lg msg req url) xs w)
    = exit (doPost cl (Call_request c) (Call_url c) w') /\
    Call_client c = cl_client cl.
Proof.
  revert w. induction xs as [|x rest IH]; intros w H.
  - contradiction H. reflexivity.
  - set (body := posting cl lg msg req url) in *.
    destruct (exit (body x w)) as [[e|]|] eqn:Hx.
    + destruct (forRange_break body x rest w) as [He Hc].
      { rewrite Hx. discriminate. }
      exists [], (Build_Call (cl_client cl) POST url (req x)), w.
      rewrite He, Hc. unfold body. rewrite posting_calls.
      repeat split. constructor.
    + destruct (forRange_continue body x rest w Hx) as [He Hc].
      rewrite He in H. destruct (IH _ H) as (pre & c & w' & Hcalls & Hpre & Hm & Hex & Hcl).
      exists ((Build_Call (cl_client cl) POST url (req x),
               fst (roundTrip w (Build_Call (cl_client cl) POST url (req x))))
              :: pre), c, w'.
      rewrite He, Hc, Hcalls. unfold body at 1. rewrite posting_calls.
      repeat split; try assumption.
      constructor; [ | exact Hpre ]. cbn.
      apply doPost_succeeded. rewrite <- Hx. reflexivity.
    + destruct (forRange_break body x rest w) as [He Hc].
      { rewrite Hx. discriminate. }
      exists [], (Build_Call (cl_client cl) POST url (req x)), w.
      rewrite He, Hc. unfold body. rewrite posting_calls.
      repeat split. constructor.
Qed.

Lemma single_last (cl : client) lg msg (req : Request) url (w : World) :
  exists pre c w',
    calls (bind (Info lg msg) (fun _ => doPost cl req url) w)
    = pre ++ [(c, fst (roundTrip w' c))] /\
    Forall (fun co => succeeded (snd co) = true) pre /\
    Call_method c = POST /\
    exit (bind (Info lg msg) (fun _ => doPost cl req url) w)
    = exit (doPost cl (Call_request c) (Call_url c) w') /\
    Call_client c = cl_client cl.
Proof.
  exists [], (Build_Call (cl_client cl) POST url req), w.
  rewrite single_calls. repeat split. constructor.
Qed.

(** A mutation that does not return [nil] was handed a nil pointer and
    panicked without a call, or it ended on its last call. *)
Lemma mutation_last (cl : client) (op : MutationOp) (w : World) :
  exit (callMutation cl op w) <> Returned None ->
  (nil_argument op = true /\
   calls (callMutation cl op w) = [] /\
   exit (callMutation cl op w) = Panicked) \/
  (exists pre c w',
      calls (callMutation cl op w) = pre ++ [(c, fst (roundTrip w' c))] /\
      Forall (fun co => succeeded (snd co) = true) pre /\
      Call_method c = POST /\
      exit (callMutation cl op w)
      = exit (doPost cl (Call_request c) (Call_url c) w') /\
      Call_client c = cl_client cl).
Proof.
  destruct op; cbn [callMutation nil_argument]; unfold_ops; case_ptr;
    intros H;
    first [ right; apply single_last
          | right; apply posting_last; exact H
          | left; split; [ reflexivity | split; reflexivity ] ].
Qed.

Lemma nil_argument_panics (cl : client) (op : MutationOp) (w : World) :
  nil_argument op = true ->
  exit (callMutation cl op w) = Panicked /\ calls (callMutation cl op w) = [].
Proof.
  destruct op; cbn [nil_argument]; try discriminate;
    case_ptr; try discriminate; intros _; split; reflexivity.
Qed.

Lemma single_nil_iff (cl : client) lg msg (req : Request) url (w : World) :
  exit (bind (Info lg msg) (fun _ => doPost cl req url) w) = Returned None
  <-> length (calls (bind (Info lg msg) (fun _ => doPost cl req url) w))
      = 1%nat /\
      Forall (fun co => succeeded (snd co) = true)
             (calls (bind (Info lg msg) (fun _ => doPost cl req url) w)).
Proof.
  rewrite single_calls, single_exit, <- doPost_succeeded. split.
  - intros H. split; [ reflexivity | ]. constructor; [ exact H | constructor ].
  - intros [_ H]. inversion H. assumption.
Qed.

Lemma batch_nil_iff {A : Type} (cl : client) (lg : A -> Logger) msg
  (req : A -> Request) url (xs : list A) (w : World) :
  exit (forRange (posting cl lg msg req url) xs w) = Returned None
  <-> length (calls (forRange (posting cl lg msg req url) xs w)) = length xs /\
      Forall (fun co => succeeded (snd co) = true)
             (calls (forRange (posting cl lg msg req url) xs w)).
Proof.
  split.
  - intros H. apply posting_nil in H. destruct H as [Ha Hl].
    split; assumption.
  - intros [_ H]. apply (posting_all cl lg msg req url xs w). exact H.
Qed.

(** A mutation returns [nil] exactly when it issued one call for each of
    its items and every call succeeded. *)
Lemma mutation_nil_iff (cl : client) (op : MutationOp) (w : World) :
  exit (callMutation cl op w) = Returned None <->
  length (calls (callMutation cl op w)) = items op /\
  Forall (fun co => succeeded (snd co) = true)
         (calls (callMutation cl op w)).
Proof.
  destruct op; cbn [callMutation items]; unfold_ops; case_ptr;
    first [ apply single_nil_iff
          | apply batch_nil_iff
          | rewrite nil_body_exit, nil_body_calls; split;
            [ discriminate | intros [H _]; discriminate H ] ].
Qed.

Lemma succeeded_spec (o : Outcome) :
  succeeded o = true <->
  err o = None /\
  exists r, resp o = Some r /\ resp_StatusCode r = http_StatusOK.
Proof.
  unfold succeeded. destruct o as [[r|] [e|]]; cbn.
  - split; [ discriminate | intros [H _]; discriminate H ].
  - split.
    + intros H. split; [ reflexivity | ]. exists r.
      split; [ reflexivity | apply Z.eqb_eq; exact H ].
    + intros [_ (r' & Hr & Hs)]. injection Hr as <-.
      apply Z.eqb_eq. exact Hs.
  - split; [ discriminate | intros [H _]; discriminate H ].
  - split; [ discriminate | intros [_ (r' & Hr & _)]; discriminate Hr ].
Qed.

Lemma rebuild_call (cl : client) (c : Call) :
  Call_method c = POST -> Call_client c = cl_client cl ->
  Build_Call (cl_client cl) POST (Call_url c) (Call_request c) = c.
Proof. destruct c; cbn. intros -> ->. reflexivity. Qed.

(** C8 (amended).  An operation returns [nil] if and only if it issued
    its calls, one for a read or for a mutation that is not a batch and
    one per item for a batch, and each of them came back with no error
    reported by resty and a status code of exactly 200.  A call answered
    with any other status code, 204 and the other 2xx codes included,
    makes the operation return an error, for reads and mutations
    alike. *)
Theorem operation_succeeds_iff_calls_200 (cl : client) (w : World) :
  (forall op : ReadOp,
      exit (callRead cl op w) = Returned None <->
      exists c o r,
        calls (callRead cl op w) = [(c, o)] /\
        err o = None /\ resp o = Some r /\
        resp_StatusCode r = http_StatusOK) /\
  (forall op : MutationOp,
      exit (callMutation cl op w) = Returned None <->
      length (calls (callMutation cl op w)) = items op /\
      Forall (fun co => err (snd co) = None /\
                        exists r, resp (snd co) = Some r /\
                                  resp_StatusCode r = http_StatusOK)
             (calls (callMutation cl op w))) /\
  (forall (op : ReadOp) c o r,
      In (c, o) (calls (callRead cl op w)) ->
      resp o = Some r -> resp_StatusCode r <> http_StatusOK ->
      exists e, exit (callRead cl op w) = Returned (Some e)) /\
  (forall (op : MutationOp) c o r,
      In (c, o) (calls (callMutation cl op w)) ->
      resp o = Some r -> resp_StatusCode r <> http_StatusOK ->
      exists e, exit (callMutation cl op w) = Returned (Some e)).
Proof.
  split; [ | split; [ | split ] ].
  - intros op. destruct (callRead_doGet cl op) as (req & url & ->).
    rewrite doGet_calls, <- doGet_succeeded, succeeded_spec. split.
    + intros [He (r & Hr & Hs)]. eexists. eexists. exists r.
      split; [ reflexivity | ]. repeat split; assumption.
    + intros (c & o & r & Hc & He & Hr & Hs).
      injection Hc as _ <-. split; [ exact He | ]. exists r.
      split; assumption.
  - intros op. rewrite mutation_nil_iff. split; intros [Hl Ha];
      (split; [ exact Hl | ]);
      (eapply Forall_impl; [ | exact Ha ]); intros co H;
      apply succeeded_spec; exact H.
  - intros op c o r Hin Hr Hs.
    destruct (callRead_doGet cl op) as (req & url & Heq).
    rewrite Heq in *. rewrite doGet_calls in Hin.
    destruct Hin as [Hin | []]. injection Hin as _ <-.
    rewrite doGet_exit, Hr. apply Z.eqb_neq in Hs.
    destruct (err _).
    + destruct (_ && _); eexists; reflexivity.
    + rewrite Hs. eexists; reflexivity.
  - intros op c o r Hin Hr Hs.
    assert (Hf : succeeded o = false).
    { unfold succeeded. rewrite Hr. apply Z.eqb_neq in Hs.
      destruct (err o); [ reflexivity | exact Hs ]. }
    destruct (mutation_last cl op w)
      as [(_ & Hc & _) | (pre & c' & w' & Hc & Hpre & Hm & He & Hcl)].
    + intros Hnil. apply mutation_nil_iff in Hnil. destruct Hnil as [_ Ha].
      rewrite Forall_forall in Ha. specialize (Ha _ Hin). cbn in Ha.
      rewrite Ha in Hf. discriminate Hf.
    + rewrite Hc in Hin. destruct Hin.
    + rewrite Hc in Hin. apply in_app_or in Hin.
      destruct Hin as [Hin | [Hin | []]].
      * rewrite Forall_forall in Hpre. specialize (Hpre _ Hin). cbn in Hpre.
        rewrite Hpre in Hf. discriminate Hf.
      * injection Hin as <- Ho.
        rewrite He, doPost_exit, (rebuild_call cl c' Hm Hcl), Ho, Hr.
        apply Z.eqb_neq in Hs.
        destruct (err o); [ eexists; reflexivity | ].
        rewrite Hs. eexists; reflexivity.
Qed.

(** X4.  The error a mutation returns is the error of the last call it
    issued: every call before it succeeded, and the error is the error
    of the transport for that call or, when the transport reports none,
    the status line of its response. *)
Theorem mutation_error_is_of_last_call
  (cl : client) (op : MutationOp) (w : World) (e : error) :
  exit (callMutation cl op w) = Returned (Some e) ->
  exists pre c o,
    calls (callMutation cl op w) = pre ++ [(c, o)] /\
    Forall (fun co => succeeded (snd co) = true) pre /\
    succeeded o = false /\
    post_error o e.
Proof.
  intros H.
  destruct (mutation_last cl op w)
    as [(_ & _ & Hp) | (pre & c & w' & Hc & Hpre & Hm & He & Hcl)].
  { rewrite H. discriminate. }
  { rewrite H in Hp. discriminate Hp. }
  exists pre, c, (fst (roundTrip w' c)).
  split; [ exact Hc | ]. split; [ exact Hpre | ].
  rewrite H in He. symmetry in He.
  pose proof (rebuild_call cl c Hm Hcl) as Hcall.
  split.
  - destruct (succeeded (fst (roundTrip w' c))) eqn:Hs; [ | reflexivity ].
    rewrite <- Hcall in Hs. apply doPost_succeeded in Hs.
    rewrite Hs in He. discriminate He.
  - apply doPost_error in He. rewrite Hcall in He. exact He.
Qed.

(** X5.  A read panics exactly when its call comes back without a
    response object.  A mutation panics in exactly two cases: it was
    handed a nil pointer ([SetAccessList], [SetDNSConfig],
    [SetDHCPConfig]), and then no call is issued; or the last call it
    issued came back without a response object, after calls that all
    succeeded. *)
Theorem panic_iff_nil_pointer_or_no_response (cl : client) (w : World) :
  (forall op : ReadOp,
      exit (callRead cl op w) = Panicked <->
      exists c o, calls (callRead cl op w) = [(c, o)] /\ resp o = None) /\
  (forall op : MutationOp,
      exit (callMutation cl op w) = Panicked <->
      (nil_argument op = true /\ calls (callMutation cl op w) = []) \/
      (exists pre c o,
          calls (callMutation cl op w) = pre ++ [(c, o)] /\
          Forall (fun co => succeeded (snd co) = true) pre /\
          resp o = None)).
Proof.
  split.
  - intros op. destruct (callRead_doGet cl op) as (req & url & ->).
    rewrite doGet_calls, doGet_panic. split.
    + intros H. eexists. eexists. split; [ reflexivity | exact H ].
    + intros (c & o & Hc & Hr). injection Hc as _ <-. exact Hr.
  - intros op. split.
    + intros H.
      destruct (mutation_last cl op w)
        as [(Hn & Hc & _) | (pre & c & w' & Hc & Hpre & Hm & He & Hcl)].
      * rewrite H. discriminate.
      * left. split; assumption.
      * right. exists pre, c, (fst (roundTrip w' c)).
        split; [ exact Hc | ]. split; [ exact Hpre | ].
        rewrite H in He. symmetry in He. apply doPost_panic in He.
        rewrite (rebuild_call cl c Hm Hcl) in He. exact He.
    + intros [[Hn _] | (pre & c & o & Hc & Hpre & Hr)].
      * apply nil_argument_panics. exact Hn.
      * destruct (mutation_last cl op w)
          as [(_ & _ & Hp) | (pre' & c' & w' & Hc' & _ & Hm & He & Hcl)].
        -- intros Hnil. apply mutation_nil_iff in Hnil.
           destruct Hnil as [_ Ha]. rewrite Hc in Ha.
           apply Forall_app in Ha. destruct Ha as [_ Ha].
           inversion Ha as [|? ? Ho _]. cbn in Ho.
           unfold succeeded in Ho. rewrite Hr in Ho.
           destruct (err o); discriminate Ho.
        -- exact Hp.
        -- rewrite Hc in Hc'. apply app_inj_tail in Hc'.
           destruct Hc' as [_ Hlast]. injection Hlast as <- Ho.
           rewrite He. apply doPost_panic.
           rewrite (rebuild_call cl c Hm Hcl), <- Ho. exact Hr.
Qed.

(** X6.  [Setup] is the one mutation that touches the credentials of a
    request: every call of any other mutation carries the credentials the
    fresh request of the client came with. *)
Theorem only_Setup_resets_UserInfo
  (cl : client) (op : MutationOp) (w : World) :
  op <> Op_Setup ->
  Forall (fun c => Request_UserInfo (Call_request c)
                   = Request_UserInfo (R (cl_client cl)))
         (map fst (calls (callMutation cl op w))).
Proof.
  intros Hop.
  destruct op; try (contradiction Hop; reflexivity);
    cbn [callMutation]; unfold_ops; case_ptr;
    first [ apply single_shape | apply batch_shape; intros ?
          | rewrite nil_body_calls; constructor ];
    reflexivity.
Qed.

(** X7.  [doGet] and [doPost] read an answer the same way but for the
    redirect to the provisioning page: given the same answer, they end
    the same way unless that answer is the refused redirect to
    ["/install.html"]. *)
Theorem doGet_doPost_agree
  (cl : client) (req : Request) (url : string) (w : World) :
  let og := fst (roundTrip w (Build_Call (cl_client cl) GET url req)) in
  let op := fst (roundTrip w (Build_Call (cl_client cl) POST url req)) in
  og = op ->
  ~ setup_redirect og ->
  exit (doGet cl req url w) = exit (doPost cl req url w).
Proof.
  intros og op Heq Hn. rewrite doGet_exit, doPost_exit. fold og op.
  rewrite <- Heq. destruct og as [[r|] [e|]] eqn:Ho; cbn; try reflexivity.
  destruct (_ && _) eqn:Hb; [ | reflexivity ].
  exfalso. apply Hn.
  apply (setup_redirect_test {| resp := Some r; err := Some e |} r e
           eq_refl eq_refl). exact Hb.
Qed.

(** *** What a filter batch sends *)

Lemma single_world (cl : client) lg msg (req : Request) url (w : World) :
  world (bind (Info lg msg) (fun _ => doPost cl req url) w)
  = snd (roundTrip w (Build_Call (cl_client cl) POST url req)).
Proof. rewrite <- doPost_world. reflexivity. Qed.

(** Two batches whose items give the same requests issue the same calls,
    end the same way and leave the same world; only their log lines may
    differ. *)
Lemma posting_ext {A B : Type} (cl : client)
  (lg : A -> Logger) (lg' : B -> Logger) msg msg'
  (req : A -> Request) (req' : B -> Request) url (xs : list A) (ys : list B) :
  map req xs = map req' ys ->
  forall w,
    calls (forRange (posting cl lg msg req url) xs w)
    = calls (forRange (posting cl lg' msg' req' url) ys w) /\
    exit (forRange (posting cl lg msg req url) xs w)
    = exit (forRange (posting cl lg' msg' req' url) ys w) /\
    world (forRange (posting cl lg msg req url) xs w)
    = world (forRange (posting cl lg' msg' req' url) ys w).
Proof.
  revert ys. induction xs as [|x rest IH]; intros [|y ys] Hmap w;
    try discriminate Hmap.
  - repeat split.
  - cbn [map] in Hmap. injection Hmap as Hxy Hrest.
    set (body := posting cl lg msg req url).
    set (body' := posting cl lg' msg' req' url).
    assert (E : exit (body x w) = exit (body' y w)).
    { unfold body, body'. rewrite !single_exit, Hxy. reflexivity. }
    assert (C : calls (body x w) = calls (body' y w)).
    { unfold body, body'. rewrite !single_calls, Hxy. reflexivity. }
    assert (W : world (body x w) = world (body' y w)).
    { unfold body, body'. rewrite !single_world, Hxy. reflexivity. }
    destruct (exit (body x w)) as [[e|]|] eqn:Hx.
    + destruct (forRange_break body x rest w) as [He Hc].
      { rewrite Hx. discriminate. }
      destruct (forRange_break body' y ys w) as [He' Hc'].
      { rewrite <- E. discriminate. }
      rewrite He, Hc, He', Hc', Hx, <- E, C.
      split; [ reflexivity | split; [ reflexivity | ] ].
      rewrite !forRange_cons, !world_bind, Hx, <- E. cbn. exact W.
    + symmetry in E.
      destruct (forRange_continue body x rest w Hx) as [He Hc].
      destruct (forRange_continue body' y ys w E) as [He' Hc'].
      destruct (IH ys Hrest (world (body x w))) as (IHc & IHe & IHw).
      rewrite He, Hc, He', Hc', <- W, <- C.
      split; [ f_equal; exact IHc | split; [ exact IHe | ] ].
      rewrite !forRange_cons, !world_bind, Hx, E, <- W. exact IHw.
    + destruct (forRange_break body x rest w) as [He Hc].
      { rewrite Hx. discriminate. }
      destruct (forRange_break body' y ys w) as [He' Hc'].
      { rewrite <- E. discriminate. }
      rewrite He, Hc, He', Hc', Hx, <- E, C.
      split; [ reflexivity | split; [ reflexivity | ] ].
      rewrite !forRange_cons, !world_bind, Hx, <- E. exact W.
Qed.

(** The calls of a batch are, in order, those of the first items of the
    list. *)
Lemma posting_prefix {A : Type} (cl : client) (lg : A -> Logger) msg
  (req : A -> Request) url (xs : list A) (w : World) :
  map fst (calls (forRange (posting cl lg msg req url) xs w))
  = firstn (length (calls (forRange (posting cl lg msg req url) xs w)))
           (map (fun x => Build_Call (cl_client cl) POST url (req x)) xs).
Proof.
  revert w. induction xs as [|x rest IH]; intros w.
  - reflexivity.
  - set (body := posting cl lg msg req url) in *.
    assert (C : calls (body x w)
                = [(Build_Call (cl_client cl) POST url (req x),
                    fst (roundTrip w (Build_Call (cl_client cl) POST url
                                                 (req x))))]).
    { unfold body. apply posting_calls. }
    destruct (exit (body x w)) as [[e|]|] eqn:Hx.
    + destruct (forRange_break body x rest w) as [_ Hc].
      { rewrite Hx. discriminate. }
      rewrite Hc, C. reflexivity.
    + destruct (forRange_continue body x rest w Hx) as [_ Hc].
      rewrite Hc, C. cbn. f_equal. apply IH.
    + destruct (forRange_break body x rest w) as [_ Hc].
      { rewrite Hx. discriminate. }
      rewrite Hc, C. reflexivity.
Qed.

(** X8.  What the filter batches send.  The calls of [AddFilters] are,
    in order, those of the first filters of the list (all of them when
    every call succeeds), each with the name and the URL of the filter
    and the whitelist flag of the call: the id, the enabled flag and the
    whitelist flag of the filter itself are not sent.  [DeleteFilters]
    sends the URL and the flag of the call only.  [UpdateFilters] sends
    everything but the whitelist flag of the filter, which the flag of
    the call replaces.  Hence lists that agree on what is sent give the
    same calls, the same result and the same final state. *)
Theorem filter_batches_sent_fields
  (cl : client) (whitelist : bool) (fs fs' : list Filter) (w : World) :
  let added f :=
    Build_Call (cl_client cl) POST "/filtering/add_url"
      (SetBody (Body_Filter {| Filter_ID := 0; Filter_Name := Filter_Name f;
                               Filter_URL := Filter_URL f;
                               Filter_Whitelist := whitelist;
                               Filter_Enabled := false |})
               (EnableTrace (R (cl_client cl)))) in
  let deleted f :=
    Build_Call (cl_client cl) POST "/filtering/remove_url"
      (SetBody (Body_Filter {| Filter_ID := 0; Filter_Name := "";
                               Filter_URL := Filter_URL f;
                               Filter_Whitelist := whitelist;
                               Filter_Enabled := false |})
               (EnableTrace (R (cl_client cl)))) in
  let updated f :=
    Build_Call (cl_client cl) POST "/filtering/set_url"
      (SetBody (Body_FilterUpdate
                  {| FilterUpdate_Whitelist := whitelist;
                     FilterUpdate_URL := Filter_URL f;
                     FilterUpdate_Data :=
                       {| Filter_ID := Filter_ID f;
                          Filter_Name := Filter_Name f;
                          Filter_URL := Filter_URL f;
                          Filter_Whitelist := whitelist;
                          Filter_Enabled := Filter_Enabled f |} |})
               (EnableTrace (R (cl_client cl)))) in
  ((map fst (calls (AddFilters cl whitelist fs w))
    = firstn (length (calls (AddFilters cl whitelist fs w))) (map added fs) /\
    (Forall (fun co => succeeded (snd co) = true)
            (calls (AddFilters cl whitelist fs w)) ->
     map fst (calls (AddFilters cl whitelist fs w)) = map added fs)) /\
   (map fst (calls (DeleteFilters cl whitelist fs w))
    = firstn (length (calls (DeleteFilters cl whitelist fs w)))
             (map deleted fs) /\
    (Forall (fun co => succeeded (snd co) = true)
            (calls (DeleteFilters cl whitelist fs w)) ->
     map fst (calls (DeleteFilters cl whitelist fs w)) = map deleted fs)) /\
   (map fst (calls (UpdateFilters cl whitelist fs w))
    = firstn (length (calls (UpdateFilters cl whitelist fs w)))
             (map updated fs) /\
    (Forall (fun co => succeeded (snd co) = true)
            (calls (UpdateFilters cl whitelist fs w)) ->
     map fst (calls (UpdateFilters cl whitelist fs w)) = map updated fs))) /\
  ((map (fun f => (Filter_Name f, Filter_URL f)) fs
    = map (fun f => (Filter_Name f, Filter_URL f)) fs' ->
    calls (AddFilters cl whitelist fs w)
    = calls (AddFilters cl whitelist fs' w) /\
    exit (AddFilters cl whitelist fs w) = exit (AddFilters cl whitelist fs' w) /\
    world (AddFilters cl whitelist fs w)
    = world (AddFilters cl whitelist fs' w)) /\
   (map Filter_URL fs = map Filter_URL fs' ->
    calls (DeleteFilters cl whitelist fs w)
    = calls (DeleteFilters cl whitelist fs' w) /\
    exit (DeleteFilters cl whitelist fs w)
    = exit (DeleteFilters cl whitelist fs' w) /\
    world (DeleteFilters cl whitelist fs w)
    = world (DeleteFilters cl whitelist fs' w)) /\
   (map (fun f => (Filter_ID f, Filter_Name f, Filter_URL f, Filter_Enabled f))
        fs
    = map (fun f => (Filter_ID f, Filter_Name f, Filter_URL f,
                     Filter_Enabled f)) fs' ->
    calls (UpdateFilters cl whitelist fs w)
    = calls (UpdateFilters cl whitelist fs' w) /\
    exit (UpdateFilters cl whitelist fs w)
    = exit (UpdateFilters cl whitelist fs' w) /\
    world (UpdateFilters cl whitelist fs w)
    = world (UpdateFilters cl whitelist fs' w))).
Proof.
  intros added deleted updated. split.
  - split; [ | split ]; split.
    + unfold AddFilters. apply posting_prefix.
    + unfold AddFilters. intros H. apply posting_all in H. apply H.
    + unfold DeleteFilters. apply posting_prefix.
    + unfold DeleteFilters. intros H. apply posting_all in H. apply H.
    + unfold UpdateFilters. apply posting_prefix.
    + unfold UpdateFilters. intros H. apply posting_all in H. apply H.
  - split; [ | split ]; intros Hkey.
    + unfold AddFilters. apply posting_ext.
      apply (f_equal (map (fun k : string * string =>
        SetBody (Body_Filter {| Filter_ID := 0; Filter_Name := fst k;
                                Filter_URL := snd k;
                                Filter_Whitelist := whitelist;
                                Filter_Enabled := false |})
                (EnableTrace (R (cl_client cl)))))) in Hkey.
      rewrite !map_map in Hkey. exact Hkey.
    + unfold DeleteFilters. apply posting_ext.
      apply (f_equal (map (fun u : string =>
        SetBody (Body_Filter {| Filter_ID := 0; Filter_Name := "";
                                Filter_URL := u;
                                Filter_Whitelist := whitelist;
                                Filter_Enabled := false |})
                (EnableTrace (R (cl_client cl)))))) in Hkey.
      rewrite !map_map in Hkey. exact Hkey.
    + unfold UpdateFilters. apply posting_ext.
      apply (f_equal (map (fun k : Z * string * string * bool =>
        SetBody (Body_FilterUpdate
                   {| FilterUpdate_Whitelist := whitelist;
                      FilterUpdate_URL := snd (fst k);
                      FilterUpdate_Data :=
                        {| Filter_ID := fst (fst (fst k));
                           Filter_Name := snd (fst (fst k));
                           Filter_URL := snd (fst k);
                           Filter_Whitelist := whitelist;
                           Filter_Enabled := snd k |} |})
                (EnableTrace (R (cl_client cl)))))) in Hkey.
      rewrite !map_map in Hkey. exact Hkey.
Qed.

(** X14.  An update names the item by the data it sends: the name of a
    client update is the name inside the new data, and the URL and the
    whitelist flag of a filter update are those of the new data, so that
    neither [UpdateClients] nor [UpdateFilters] can rename what it
    updates. *)
Theorem updates_are_keyed_by_new_data (cl : client) (w : World) :
  (forall clients : list model_Client,
      Forall (fun c => exists d,
                  Request_Body (Call_request c)
                  = Some (Body_ClientUpdate (Client_Name d) (Some d)))
             (map fst (calls (UpdateClients cl clients w)))) /\
  (forall (whitelist : bool) (fs : list Filter),
      Forall (fun c => exists fu,
                  Request_Body (Call_request c) = Some (Body_FilterUpdate fu) /\
                  FilterUpdate_URL fu = Filter_URL (FilterUpdate_Data fu) /\
                  FilterUpdate_Whitelist fu
                  = Filter_Whitelist (FilterUpdate_Data fu) /\
                  FilterUpdate_Whitelist fu = whitelist)
             (map fst (calls (UpdateFilters cl whitelist fs w)))).
Proof.
  split.
  - intros clients. unfold UpdateClients. apply batch_shape.
    intros d. exists d. reflexivity.
  - intros whitelist fs. unfold UpdateFilters. apply batch_shape.
    intros f. eexists. cbn. repeat split.
Qed.

(** The loop splits at [nil]. *)
Lemma forRange_splits {A : Type} (body : A -> M (option error)) :
  splits_at_nil (forRange body).
Proof.
  intros xs. induction xs as [|x rest IH]; intros ys w.
  - cbn. split; reflexivity.
  - cbn [app].
    destruct (exit (body x w)) as [[e|]|] eqn:Hx.
    + destruct (forRange_break body x rest w) as [He Hc].
      { rewrite Hx. discriminate. }
      destruct (forRange_break body x (rest ++ ys) w) as [He' Hc'].
      { rewrite Hx. discriminate. }
      rewrite He, Hx. rewrite He', Hc', Hc, Hx. split; reflexivity.
    + destruct (forRange_continue body x rest w Hx) as [He Hc].
      destruct (forRange_continue body x (rest ++ ys) w Hx) as [He' Hc'].
      specialize (IH ys (world (body x w))).
      assert (Hw : world (forRange body (x :: rest) w)
                   = world (forRange body rest (world (body x w)))).
      { rewrite forRange_cons, world_bind, Hx. reflexivity. }
      rewrite He, He', Hc', Hc, Hw.
      destruct (exit (forRange body rest (world (body x w)))) as [[e|]|].
      * destruct IH as [IHe IHc]. rewrite IHe, IHc. split; reflexivity.
      * destruct IH as [IHe IHc]. rewrite IHe, IHc, app_assoc.
        split; reflexivity.
      * destruct IH as [IHe IHc]. rewrite IHe, IHc. split; reflexivity.
    + destruct (forRange_break body x rest w) as [He Hc].
      { rewrite Hx. discriminate. }
      destruct (forRange_break body x (rest ++ ys) w) as [He' Hc'].
      { rewrite Hx. discriminate. }
      rewrite He, Hx. rewrite He', Hc', Hc, Hx. split; reflexivity.
Qed.

(** X15.  Every batch method splits at [nil]: one call on [xs ++ ys]
    issues the calls of a call on [xs] followed, when that one returns
    [nil], by those of a call on [ys], and ends like the last of the two
    that ran. *)
Theorem batches_split_at_nil (cl : client) (whitelist : bool) :
  splits_at_nil (AddRewriteEntries cl) /\
  splits_at_nil (DeleteRewriteEntries cl) /\
  splits_at_nil (AddFilters cl whitelist) /\
  splits_at_nil (DeleteFilters cl whitelist) /\
  splits_at_nil (UpdateFilters cl whitelist) /\
  splits_at_nil (AddClients cl) /\
  splits_at_nil (UpdateClients cl) /\
  splits_at_nil (DeleteClients cl) /\
  splits_at_nil (AddDHCPStaticLeases cl) /\
  splits_at_nil (DeleteDHCPStaticLeases cl).
Proof.
  repeat split; intros xs ys w; apply forRange_splits.
Qed.

End Protocol.

(** *** The client [New] builds *)

Section Built.

Context {golib : GoLib}.

(** X9.  [New] returns a client or an error, never both and never
    neither; it returns an error exactly when the URL does not parse or
    the variable REDIRECT_POLICY_NO_OF_REDIRECTS is set to something
    that is not an integer. *)
Theorem New_client_or_error (env : string -> option string)
  (config : AdGuardInstance) :
  ((exists cl, New env config = (Some cl, None)) \/
   (exists e, New env config = (None, Some e))) /\
  ((exists e, New env config = (None, Some e)) <->
   (exists x, url_Parse (apiURL config) = inr x) \/
   (exists v x, env envRedirectPolicyNoOfRedirects = Some v /\
                strconv_Atoi v = inr x)).
Proof.
  unfold New.
  destruct (url_Parse (apiURL config)) as [u|x].
  - destruct (env envRedirectPolicyNoOfRedirects) as [v|].
    + destruct (strconv_Atoi v) as [n|x] eqn:Hat.
      * split; [ left; eexists; reflexivity | ]. split.
        -- intros [e H]. discriminate H.
        -- intros [[y H] | (v' & y & Hv & Ha)]; [ discriminate H | ].
           injection Hv as <-. rewrite Hat in Ha. discriminate Ha.
      * split; [ right; eexists; reflexivity | ]. split.
        -- intros _. right. exists v, x. split; [ reflexivity | exact Hat ].
        -- intros _. eexists; reflexivity.
    + split; [ left; eexists; reflexivity | ]. split.
      * intros [e H]. discriminate H.
      * intros [[y H] | (v' & y & Hv & _)]; discriminate.
  - split; [ right; eexists; reflexivity | ]. split.
    + intros _. left. exists x. reflexivity.
    + intros _. eexists; reflexivity.
Qed.

(** X10.  A client built by [New] never has resty's default redirect
    policy: it follows no redirect when the variable
    REDIRECT_POLICY_NO_OF_REDIRECTS is unset, and as many as the variable
    says when it is set. *)
Theorem New_redirect_policy (env : string -> option string)
  (config : AdGuardInstance) (cl : client) :
  New env config = (Some cl, None) ->
  (env envRedirectPolicyNoOfRedirects = None ->
   Client_RedirectPolicy (cl_client cl) = NoRedirectPolicy) /\
  (forall v, env envRedirectPolicyNoOfRedirects = Some v ->
             exists n, strconv_Atoi v = inl n /\
                       Client_RedirectPolicy (cl_client cl)
                       = FlexibleRedirectPolicy n) /\
  Client_RedirectPolicy (cl_client cl) <> DefaultRedirectPolicy.
Proof.
  unfold New. destruct (url_Parse (apiURL config)) as [u|x];
    [ | discriminate ].
  destruct (env envRedirectPolicyNoOfRedirects) as [v|].
  - destruct (strconv_Atoi v) as [n|x] eqn:Ha; [ | discriminate ].
    intros H. injection H as <-. cbn. split; [ discriminate | ].
    split; [ | discriminate ].
    intros v' Hv. injection Hv as <-. exists n. split; [ exact Ha | reflexivity ].
  - intros H. injection H as <-. cbn. split; [ reflexivity | ].
    split; [ intros v' Hv; discriminate Hv | discriminate ].
Qed.

(** X11.  A client built by [New] has credentials exactly when the
    instance gives both a user name and a password, and then these; it
    skips the verification of certificates exactly when the instance asks
    for it; and resty's warnings are always off. *)
Theorem New_credentials_and_tls (env : string -> option string)
  (config : AdGuardInstance) (cl : client) :
  New env config = (Some cl, None) ->
  (Client_UserInfo (cl_client cl) <> None <->
   Username config <> "" /\ Password config <> "") /\
  (forall u, Client_UserInfo (cl_client cl) = Some u ->
             User_Username u = Username config /\
             User_Password u = Password config) /\
  (TLSClientConfig (cl_client cl) = Some {| tls_InsecureSkipVerify := true |}
   <-> InsecureSkipVerify config = true) /\
  (TLSClientConfig (cl_client cl) = None
   <-> InsecureSkipVerify config = false) /\
  DisableWarn (cl_client cl) = true.
Proof.
  intros H. pose proof (New_credentials env config cl H) as Hu.
  assert (Hrest :
    TLSClientConfig (cl_client cl)
    = (if InsecureSkipVerify config
       then Some {| tls_InsecureSkipVerify := true |} else None) /\
    DisableWarn (cl_client cl) = true).
  { revert H. unfold New.
    destruct (url_Parse (apiURL config)) as [u|x]; [ | discriminate ].
    destruct (env envRedirectPolicyNoOfRedirects) as [v|].
    - destruct (strconv_Atoi v) as [n|x]; [ | discriminate ].
      intros H. injection H as <-. cbn.
      destruct (InsecureSkipVerify config);
        destruct (negb _ && negb _); split; reflexivity.
    - intros H. injection H as <-. cbn.
      destruct (InsecureSkipVerify config);
        destruct (negb _ && negb _); split; reflexivity. }
  destruct Hrest as [Ht Hw].
  split; [ | split; [ | split; [ | split ] ] ].
  - rewrite Hu.
    destruct (String.eqb_spec (Username config) "") as [En|En];
      destruct (String.eqb_spec (Password config) "") as [Ep|Ep]; cbn;
      (split;
       [ intros Hc; first [ contradiction Hc; reflexivity
                          | split; assumption ]
       | intros [Hn Hp]; first [ contradiction | discriminate ] ]).
  - intros u Hsome. rewrite Hu in Hsome.
    destruct (negb _ && negb _); [ | discriminate Hsome ].
    injection Hsome as <-. split; reflexivity.
  - rewrite Ht. destruct (InsecureSkipVerify config); split;
      try reflexivity; discriminate.
  - rewrite Ht. destruct (InsecureSkipVerify config); split;
      try reflexivity; discriminate.
  - exact Hw.
Qed.

Context {model : Model} {resty : Resty}.

(** X12.  Provisioning with the client of an instance: [Setup] creates
    the account of the instance when the instance gives both a user name
    and a password; when either is missing the account it asks for has an
    empty user name and an empty password, whatever the other is. *)
Theorem New_then_Setup_account (env : string -> option string)
  (config : AdGuardInstance) (cl : client) (w : World) :
  New env config = (Some cl, None) ->
  exists c o cfg,
    calls (Setup cl w) = [(c, o)] /\
    Request_Body (Call_request c) = Some (Body_InitialConfiguration cfg) /\
    (Username config <> "" -> Password config <> "" ->
     cfg_Username cfg = Username config /\
     cfg_Password cfg = Password config) /\
    (Username config = "" \/ Password config = "" ->
     cfg_Username cfg = "" /\ cfg_Password cfg = "").
Proof.
  intros H. pose proof (New_credentials env config cl H) as Hu.
  destruct (Setup_calls cl w) as (req & Hc & _ & Hb).
  eexists. eexists. eexists.
  split; [ exact Hc | ]. split; [ exact Hb | ].
  cbn. rewrite Hu.
  destruct (String.eqb_spec (Username config) "") as [En|En];
    destruct (String.eqb_spec (Password config) "") as [Ep|Ep]; cbn.
  - split; [ intros Hn; contradiction | intros _; split; reflexivity ].
  - split; [ intros Hn; contradiction | intros _; split; reflexivity ].
  - split; [ intros _ Hp; contradiction | intros _; split; reflexivity ].
  - split; [ intros _ _; split; reflexivity | ].
    intros [Hn|Hp]; contradiction.
Qed.

End Built.

(** *** More runs on concrete inputs *)

Section MoreExamples.

Import fake.

Local Existing Instance testModel.
Local Existing Instance scripted.
Local Existing Instance testLib.

Lemma operation_succeeds_iff_calls_200_witness :
  exists e,
    exit (callMutation testClient (Op_ToggleProtection true) [no_content])
    = Returned (Some e).
Proof.
  eapply (proj2 (proj2 (proj2 (@operation_succeeds_iff_calls_200
                                 testModel scripted testClient [no_content])))
                (Op_ToggleProtection true)).
  - vm_compute. left. reflexivity.
  - reflexivity.
  - vm_compute. discriminate.
Defined.

Lemma mutation_error_is_of_last_call_witness :
  exists pre c o,
    calls (callMutation testClient (Op_AddRewriteEntries [nas; printer; tv])
                        [ok; locked; ok])
    = pre ++ [(c, o)] /\
    Forall (fun co => succeeded (snd co) = true) pre /\
    succeeded o = false /\
    post_error o (errors_New "500 Internal Server Error").
Proof.
  apply (@mutation_error_is_of_last_call testModel scripted testClient
           (Op_AddRewriteEntries [nas; printer; tv]) [ok; locked; ok]).
  vm_compute. reflexivity.
Defined.

Lemma panic_iff_nil_pointer_or_no_response_witness :
  exit (callMutation testClient (Op_ToggleProtection true) [not_sent])
  = Panicked.
Proof.
  apply (proj2 (proj2 (@panic_iff_nil_pointer_or_no_response testModel scripted
                         testClient [not_sent])
                      (Op_ToggleProtection true))).
  right. exists []. eexists. eexists.
  split; [ vm_compute; reflexivity | ].
  split; [ constructor | reflexivity ].
Defined.

Lemma only_Setup_resets_UserInfo_witness :
  Forall (fun c => Request_UserInfo (Call_request c) = None)
         (map fst (calls (callMutation testClient (Op_ToggleProtection true)
                                       [ok]))).
Proof.
  apply (@only_Setup_resets_UserInfo testModel scripted testClient
           (Op_ToggleProtection true) [ok]).
  discriminate.
Defined.

Lemma doGet_doPost_agree_witness :
  exit (doGet testClient status_request "status" [locked])
  = exit (doPost testClient status_request "status" [locked]).
Proof.
  apply (@doGet_doPost_agree testModel scripted testClient status_request
           "status" [locked]).
  - reflexivity.
  - intros (e & r & He & _). discriminate He.
Defined.

Lemma filter_batches_sent_fields_witness :
  calls (AddFilters testClient true [adlist] [ok])
  = calls (AddFilters testClient true [adlist'] [ok]).
Proof.
  refine (proj1 (proj1 (proj2 (@filter_batches_sent_fields testModel scripted
                                 testClient true [adlist] [adlist'] [ok]))
                       _)).
  reflexivity.
Defined.

Lemma New_redirect_policy_witness :
  exists cl,
    New (envRedirects "3") fullInstance = (Some cl, None) /\
    Client_RedirectPolicy (cl_client cl) = FlexibleRedirectPolicy 3.
Proof.
  eexists. split.
  - vm_compute. reflexivity.
  - destruct (proj1 (proj2 (@New_redirect_policy testLib (envRedirects "3")
                              fullInstance _ eq_refl)) "3" eq_refl)
      as (n & Hn & Hp).
    vm_compute in Hn. injection Hn as <-. exact Hp.
Defined.

Lemma New_credentials_and_tls_witness :
  exists cl,
    New noEnv halfInstance = (Some cl, None) /\
    Client_UserInfo (cl_client cl) = None /\
    TLSClientConfig (cl_client cl)
    = Some {| tls_InsecureSkipVerify := true |}.
Proof.
  eexists. split; [ vm_compute; reflexivity | ].
  split; [ reflexivity | ].
  apply (proj1 (proj2 (proj2 (@New_credentials_and_tls testLib noEnv
                                halfInstance _ eq_refl)))).
  reflexivity.
Defined.

Lemma New_then_Setup_account_witness :
  exists cl c o cfg,
    New noEnv halfInstance = (Some cl, None) /\
    calls (Setup cl []) = [(c, o)] /\
    Request_Body (Call_request c) = Some (Body_InitialConfiguration cfg) /\
    cfg_Username cfg = "" /\ cfg_Password cfg = "".
Proof.
  eexists.
  destruct (@New_then_Setup_account testLib testModel scripted noEnv
              halfInstance _ [] eq_refl) as (c & o & cfg & Hc & Hb & _ & He).
  exists c, o, cfg.
  split; [ reflexivity | ].
  split; [ exact Hc | ].
  split; [ exact Hb | ].
  apply He. right. reflexivity.
Defined.

End MoreExamples.

End client_spec.
